(** * Package table of the environment manager: model and view

    A shallow embedding of
    [spyder_env_manager/spyder/widgets/packages_table.py]:
    the table model [EnvironmentPackagesModel] (cell queries over the
    displayed package list) and the view [EnvironmentPackagesTable]
    (loading, row navigation, context menu).

    Package records are Python dicts that the model, the view and the
    caller share by reference, and [load_packages] writes into them.  The
    embedding therefore keeps a store from references to records; the
    lists and the name lookup of the model hold references. *)

From Stdlib Require Import ZArith String List Bool Lia.
From stdpp Require Import base decidable option list functions gmap strings.

Local Open Scope Z_scope.

(** ** Python values used by the widget *)

(** The only exception the modelled code can raise on well-typed records:
    list indexing out of range. *)
Inductive PyExn := IndexError.

Inductive outcome (A : Type) :=
| Returns (a : A)
| Raises (e : PyExn).
Arguments Returns {A} a.
Arguments Raises {A} e.

Global Instance outcome_ret : MRet outcome := λ A a, Returns a.
Global Instance outcome_bind : MBind outcome := λ A B k o,
  match o with
  | Returns a => k a
  | Raises e => Raises e
  end.

(** [l[i]] on a Python list: a negative index counts from the end, an index
    outside [-len(l), len(l)) raises. *)
Definition getitem {A : Type} (l : list A) (i : Z) : outcome A :=
  let n := Z.of_nat (length l) in
  let j := if i <? 0 then i + n else i in
  if (0 <=? j) && (j <? n)
  then match l !! Z.to_nat j with
       | Some x => Returns x
       | None => Raises IndexError
       end
  else Raises IndexError.

(** Truth value of an optional list argument: [None] and [[]] are false. *)
Definition truthy {A : Type} (l : option (list A)) : bool :=
  match l with
  | Some (_ :: _) => true
  | _ => false
  end.

(** [max(l)] on a non-empty list of integers, [x] being its first element. *)
Definition py_max (x : Z) (l : list Z) : Z := foldl Z.max x l.

(** ** Package records and the shared store *)

(** A package dict.  The key ["index"] is absent until a load assigns it. *)
Record Package := mkPackage {
  pkg_name : string;
  pkg_description : string;
  pkg_version : string;
  pkg_requested : bool;
  pkg_index : option Z
}.

(** Identity of a dict object. *)
Definition ref := nat.

(** The record every reference denotes. *)
Abbreviation Store := (ref → Package).

(** [package["index"] = idx] *)
Definition set_index (idx : Z) (p : Package) : Package :=
  {| pkg_name := pkg_name p;
     pkg_description := pkg_description p;
     pkg_version := pkg_version p;
     pkg_requested := pkg_requested p;
     pkg_index := Some idx |}.

(** ** Toolkit constants and values *)

(** Column constants *)
Definition NAME : Z := 0.
Definition DESCRIPTION : Z := 1.
Definition VERSION : Z := 2.

Module EnvironmentPackagesActions.
Definition UpdatePackage : string := "update_package".
Definition UninstallPackage : string := "unistall_package".
Definition InstallPackageVersion : string := "install_package_version".
End EnvironmentPackagesActions.

(** Item data roles and alignment flags, with the toolkit's numbering. *)
Module Qt.
Definition DisplayRole : Z := 0.
Definition FontRole : Z := 6.
Definition TextAlignmentRole : Z := 7.
Definition BackgroundColorRole : Z := 8.
Definition AlignHCenter : Z := 4.
Definition AlignVCenter : Z := 128.
Definition AlignCenter : Z := Z.lor AlignVCenter AlignHCenter.
Inductive SortOrder := AscendingOrder | DescendingOrder.
End Qt.

(** A model index: row, column, and whether it belongs to a model.  The
    default index [QModelIndex()] is [(-1, -1)] without a model. *)
Record QModelIndex := mkIndex {
  ix_row : Z;
  ix_column : Z;
  ix_model : bool
}.

Definition invalid_index : QModelIndex :=
  {| ix_row := -1; ix_column := -1; ix_model := false |}.

Definition isValid (index : QModelIndex) : bool :=
  (0 <=? ix_row index) && (0 <=? ix_column index) && ix_model index.

(** What a cell query hands back; [QInvalid] is the empty [to_qvariant()]. *)
Inductive QVariant :=
| QInvalid
| QText (s : string)
| QInt (n : Z)
| QFontDelta (font_size_delta : Z)
| QColor (c : string).

(** ** The table model *)

Record EnvironmentPackagesModel := mkModel {
  all_packages : list ref;
  packages : list ref;
  packages_map : gmap string ref
}.

(** [EnvironmentPackagesModel.__init__] *)
Definition new_model : EnvironmentPackagesModel :=
  {| all_packages := []; packages := []; packages_map := ∅ |}.

Definition rowCount (self : EnvironmentPackagesModel) : Z :=
  Z.of_nat (length (packages self)).

Definition columnCount (self : EnvironmentPackagesModel) : Z := 3.

(** [EnvironmentPackagesModel.row] *)
Definition row (self : EnvironmentPackagesModel) (row_num : Z) : outcome ref :=
  getitem (packages self) row_num.

(** The model class defines no [index] and no [sort]; both are the ones of
    the toolkit's abstract table model: [index] yields a valid index inside
    the table and the default index elsewhere, [sort] does nothing. *)
Definition index (self : EnvironmentPackagesModel) (r c : Z) : QModelIndex :=
  if (0 <=? r) && (r <? rowCount self) && (0 <=? c) && (c <? columnCount self)
  then {| ix_row := r; ix_column := c; ix_model := true |}
  else invalid_index.

Definition sort (self : EnvironmentPackagesModel) (column : Z)
    (order : Qt.SortOrder) : EnvironmentPackagesModel := self.

Section Widget.

(** Supplied by the host application, not by this repository: the font size
    delta, the highlight colour, and the header's font metrics. *)
Variable DEFAULT_SMALL_DELTA : Z.
Variable COLOR_OCCURRENCE_4 : string.
Variable fm_width : string → Z.

(** [EnvironmentPackagesModel.data] *)
Definition data (st : Store) (self : EnvironmentPackagesModel)
    (index : QModelIndex) (role : Z) : outcome QVariant :=
  let row := ix_row index in
  if negb (isValid index)
     || negb ((0 <=? row) && (row <? Z.of_nat (length (packages self))))
  then mret QInvalid
  else
    package ← getitem (packages self) row;
    let column := ix_column index in
    if role =? Qt.DisplayRole then
      if column =? NAME then mret (QText (pkg_name (st package)))
      else if column =? DESCRIPTION then
        mret (QText (pkg_description (st package)))
      else if column =? VERSION then mret (QText (pkg_version (st package)))
      else mret QInvalid
    else if role =? Qt.TextAlignmentRole then mret (QInt Qt.AlignCenter)
    else if role =? Qt.FontRole then mret (QFontDelta DEFAULT_SMALL_DELTA)
    else if role =? Qt.BackgroundColorRole then
      if pkg_requested (st package) then mret (QColor COLOR_OCCURRENCE_4)
      else mret QInvalid
    else mret QInvalid.

(** ** The table view *)

Record QContextMenuEvent := mkEvent {
  pos : Z * Z;
  globalPos : Z * Z
}.

(** A menu entry.  Its callback is [lambda: self.selection(name,
    packages[row])]: it keeps the list and the row, and indexes the list
    when the entry is triggered. *)
Record QAction := mkAction {
  act_text : string;
  act_name : string;
  act_packages : list ref;
  act_row : Z
}.

(** What the view asks of the toolkit and what it emits, in call order. *)
Inductive ToolkitCall :=
| BeginResetModel
| EndResetModel
| SetColumnWidth (column width : Z)
| SetStretchLastSection (stretch : bool)
| SortByColumn (column : Z) (order : Qt.SortOrder)
| SelectRow (row : Z)
| MenuPopup (actions : list QAction) (minimum_width : Z) (at_pos : Z * Z)
| EventAccept
| Emit_sig_action_context_menu (action : string) (package_info : ref).

Record EnvironmentPackagesTable := mkTable {
  store : Store;
  source_model : EnvironmentPackagesModel;
  currentIndex : QModelIndex;
  calls : list ToolkitCall
}.

Definition with_store (st : Store) (self : EnvironmentPackagesTable) :=
  {| store := st; source_model := source_model self;
     currentIndex := currentIndex self; calls := calls self |}.

Definition with_model (m : EnvironmentPackagesModel)
    (self : EnvironmentPackagesTable) :=
  {| store := store self; source_model := m;
     currentIndex := currentIndex self; calls := calls self |}.

Definition with_current (i : QModelIndex) (self : EnvironmentPackagesTable) :=
  {| store := store self; source_model := source_model self;
     currentIndex := i; calls := calls self |}.

Definition log (c : ToolkitCall) (self : EnvironmentPackagesTable) :=
  {| store := store self; source_model := source_model self;
     currentIndex := currentIndex self; calls := calls self ++ [c] |}.

(** [EnvironmentPackagesModel.reset]: the two reset signals.  The view's
    selection model answers a reset by dropping the current index. *)
Definition reset (self : EnvironmentPackagesTable) : EnvironmentPackagesTable :=
  with_current invalid_index (log EndResetModel (log BeginResetModel self)).

(** The toolkit's [selectRow]: a row outside the table is ignored, a row
    inside becomes the current one. *)
Definition selectRow (r : Z) (self : EnvironmentPackagesTable)
    : EnvironmentPackagesTable :=
  let self' := log (SelectRow r) self in
  if (0 <=? r) && (r <? rowCount (source_model self))
  then with_current (index (source_model self) r 0) self'
  else self'.

(** The toolkit's [sortByColumn]: hands the request to the model's [sort]. *)
Definition sortByColumn (column : Z) (order : Qt.SortOrder)
    (self : EnvironmentPackagesTable) : EnvironmentPackagesTable :=
  with_model (sort (source_model self) column order)
             (log (SortByColumn column order) self).

(** [EnvironmentPackagesTable.selection] *)
Definition selection (action : string) (package_info : ref)
    (self : EnvironmentPackagesTable) : EnvironmentPackagesTable :=
  log (Emit_sig_action_context_menu action package_info) self.

(** Triggering a menu entry runs its callback. *)
Definition trigger (a : QAction) (self : EnvironmentPackagesTable)
    : outcome EnvironmentPackagesTable :=
  package_info ← getitem (act_packages a) (act_row a);
  mret (selection (act_name a) package_info self).

(** [EnvironmentPackagesTable.adjust_cells] *)
Definition adjust_cells (self : EnvironmentPackagesTable)
    : EnvironmentPackagesTable :=
  let names :=
    map (λ p, fm_width (pkg_name (store self p)))
        (packages (source_model self)) in
  let self1 :=
    match names with
    | [] => self
    | w :: ws => log (SetColumnWidth NAME (py_max w ws)) self
    end in
  let descriptions :=
    map (λ p, fm_width (pkg_description (store self p)))
        (packages (source_model self)) in
  let self2 :=
    match descriptions with
    | [] => self1
    | w :: ws => log (SetColumnWidth DESCRIPTION (py_max w ws)) self1
    end in
  log (SetStretchLastSection true) self2.

(** [EnvironmentPackagesTable.get_package_info] *)
Definition get_package_info (self : EnvironmentPackagesTable) (i : Z)
    : outcome ref :=
  getitem (packages (source_model self)) i.

(** [enumerate(l)], counting from [start]. *)
Fixpoint enumerate {A : Type} (start : Z) (l : list A) : list (Z * A) :=
  match l with
  | [] => []
  | x :: l' => (start, x) :: enumerate (start + 1) l'
  end.

(** [for idx, package in enumerate(packages): package["index"] = idx] *)
Definition assign_indices (st : Store) (pkgs : list ref) : Store :=
  foldl (λ (st : Store) (ip : Z * ref),
           <[ip.2 := set_index ip.1 (st ip.2)]> st)
        st (enumerate 0 pkgs).

(** [{package["name"]: package for package in packages}] *)
Definition name_map (st : Store) (pkgs : list ref) : gmap string ref :=
  foldl (λ (m : gmap string ref) (package : ref),
           <[pkg_name (st package) := package]> m)
        ∅ pkgs.

(** [EnvironmentPackagesTable.load_packages]; [None] stands for the
    default argument [packages=None]. *)
Definition load_packages (only_requested : bool)
    (packages0 : option (list ref)) (self : EnvironmentPackagesTable)
    : EnvironmentPackagesTable :=
  let m := source_model self in
  (* if packages: self.source_model.all_packages = packages *)
  let m1 :=
    match packages0 with
    | Some ((_ :: _) as l) =>
        {| all_packages := l; packages := packages m;
           packages_map := packages_map m |}
    | _ => m
    end in
  (* if not packages and self.source_model.all_packages: ... *)
  let packages1 :=
    if negb (truthy packages0) && truthy (Some (all_packages m1))
    then Some (all_packages m1)
    else packages0 in
  match packages1 with
  | Some ((_ :: _) as l) =>
      let packages2 :=
        if only_requested
        then filter (λ package, pkg_requested (store self package)) l
        else l in
      let st := assign_indices (store self) packages2 in
      let packages_map := name_map st packages2 in
      let m2 :=
        {| all_packages := all_packages m1; packages := packages2;
           packages_map := packages_map |} in
      sortByColumn NAME Qt.AscendingOrder
        (adjust_cells (reset (with_model m2 (with_store st self))))
  | _ => with_model m1 self
  end.

(** [EnvironmentPackagesTable.__init__] over the records in [st]. *)
Definition new_table (st : Store) : EnvironmentPackagesTable :=
  load_packages false None
    {| store := st; source_model := new_model;
       currentIndex := invalid_index; calls := [] |}.

(** [EnvironmentPackagesTable.next_row] *)
Definition next_row (self : EnvironmentPackagesTable)
    : EnvironmentPackagesTable :=
  let row := ix_row (currentIndex self) in
  let rows := rowCount (source_model self) in
  let row := if row + 1 =? rows then -1 else row in
  selectRow (row + 1) self.

(** [EnvironmentPackagesTable.previous_row] *)
Definition previous_row (self : EnvironmentPackagesTable)
    : EnvironmentPackagesTable :=
  let row := ix_row (currentIndex self) in
  let rows := rowCount (source_model self) in
  let row := if row =? 0 then rows else row in
  selectRow (row - 1) self.

(** The row under a vertical position, [-1] where there is none; it
    depends on the view's geometry. *)
Variable rowAt : EnvironmentPackagesTable → Z → Z.

(** [EnvironmentPackagesTable.contextMenuEvent] *)
Definition contextMenuEvent (self : EnvironmentPackagesTable)
    (event : QContextMenuEvent) : outcome EnvironmentPackagesTable :=
  let row := rowAt self (pos event).2 in
  let packages := packages (source_model self) in
  cond ← match packages with
         | [] => mret false
         | _ :: _ =>
             package ← getitem packages row;
             mret (pkg_requested (store self package))
         end;
  if cond : bool then
    let update_action :=
      {| act_text := "Update package";
         act_name := EnvironmentPackagesActions.UpdatePackage;
         act_packages := packages; act_row := row |} in
    let uninstall_action :=
      {| act_text := "Uninstall package";
         act_name := EnvironmentPackagesActions.UninstallPackage;
         act_packages := packages; act_row := row |} in
    let change_action :=
      {| act_text := "Change package version with a constraint";
         act_name := EnvironmentPackagesActions.InstallPackageVersion;
         act_packages := packages; act_row := row |} in
    let menu_actions := [update_action; uninstall_action; change_action] in
    mret (log EventAccept
            (log (MenuPopup menu_actions 100 (globalPos event)) self))
  else mret self.

(** ** Header queries *)

(** Header orientation and the right-alignment flag of the toolkit. *)
Inductive Orientation := Horizontal | Vertical.

Definition AlignRight : Z := 2.

(** The translation function [_] of the host application. *)
Variable translate : string → string.

(** [EnvironmentPackagesModel.headerData] *)
Definition headerData (section : Z) (orientation : Orientation) (role : Z)
    : QVariant :=
  if role =? Qt.TextAlignmentRole then
    match orientation with
    | Horizontal => QInt (Z.lor Qt.AlignHCenter Qt.AlignVCenter)
    | Vertical => QInt (Z.lor AlignRight Qt.AlignVCenter)
    end
  else if negb (role =? Qt.DisplayRole) then QInvalid
  else
    match orientation with
    | Horizontal =>
        if section =? NAME then QText (translate "Name")
        else if section =? DESCRIPTION then QText (translate "Description")
        else if section =? VERSION then QText (translate "Version")
        else QInvalid
    | Vertical => QInvalid
    end.

(** ** Vocabulary of the properties *)

(** The list a call of [load_packages] works on: the argument when it is
    a non-empty list, otherwise the stored full list. *)
Definition supplied (packages0 : option (list ref))
    (self : EnvironmentPackagesTable) : list ref :=
  match packages0 with
  | Some ((_ :: _) as l) => l
  | _ => all_packages (source_model self)
  end.

(** What [load_packages] displays out of the list it works on. *)
Definition shown (only_requested : bool) (st : Store) (l : list ref)
    : list ref :=
  if only_requested then filter (λ package, pkg_requested (st package)) l
  else l.

(** The elements of [ps] flagged as requested, in the order of [ps]. *)
Fixpoint requested_subsequence (st : Store) (ps : list ref) : list ref :=
  match ps with
  | [] => []
  | p :: ps' =>
      if pkg_requested (st p)
      then p :: requested_subsequence st ps'
      else requested_subsequence st ps'
  end.

(** Ascending order of the name strings; the comparison of [String.leb] is
    lexicographic on character codes, as Python's is on code points. *)
Fixpoint sorted_by_name (st : Store) (l : list ref) : bool :=
  match l with
  | [] => true
  | p :: l' =>
      match l' with
      | [] => true
      | q :: _ => String.leb (pkg_name (st p)) (pkg_name (st q))
      end && sorted_by_name st l'
  end.

(** Two records that differ at most in their ["index"]. *)
Definition same_but_index (p1 p2 : Package) : Prop :=
  pkg_name p1 = pkg_name p2
  ∧ pkg_description p1 = pkg_description p2
  ∧ pkg_version p1 = pkg_version p2
  ∧ pkg_requested p1 = pkg_requested p2.

(** [after] is [before] with one more [selectRow k], which took effect. *)
Definition selects (before after : EnvironmentPackagesTable) (k : Z) : Prop :=
  calls after = calls before ++ [SelectRow k]
  ∧ isValid (currentIndex after) = true
  ∧ ix_row (currentIndex after) = k.

(** A menu with the three package actions was popped up. *)
Definition menu_shown (before after : EnvironmentPackagesTable) : Prop :=
  ∃ acts w p,
    calls after = calls before ++ [MenuPopup acts w p; EventAccept]
    ∧ map act_name acts =
        [EnvironmentPackagesActions.UpdatePackage;
         EnvironmentPackagesActions.UninstallPackage;
         EnvironmentPackagesActions.InstallPackageVersion].

(** ** Sample data *)

Definition numpy : Package :=
  {| pkg_name := "numpy"; pkg_description := "Array computing";
     pkg_version := "1.0"; pkg_requested := true; pkg_index := None |}.

Definition six : Package :=
  {| pkg_name := "six"; pkg_description := "Compatibility helpers";
     pkg_version := "1.1"; pkg_requested := false; pkg_index := None |}.

(** Reference [0] is [numpy], every other one is [six]. *)
Definition sample_store : Store :=
  λ r, match r with O => numpy | S _ => six end.

(** Seven pixels a character. *)
Definition sample_fm (s : string) : Z := 7 * Z.of_nat (String.length s).

(** Rows thirty pixels high, stacked from the top of the view. *)
Definition sample_rowAt (self : EnvironmentPackagesTable) (y : Z) : Z :=
  if (0 <=? y) && (y <? 30 * rowCount (source_model self))
  then y / 30
  else -1.

(** ** List indexing *)

Lemma getitem_in_range {A : Type} (l : list A) (i : Z) :
  0 <= i < Z.of_nat (length l) →
  ∃ x, l !! Z.to_nat i = Some x ∧ getitem l i = Returns x.
Proof.
  intros Hi. unfold getitem.
  destruct (i <? 0) eqn:Hneg; [apply Z.ltb_lt in Hneg; lia|].
  destruct (l !! Z.to_nat i) as [x|] eqn:Hx.
  - exists x. split; [done|].
    replace ((0 <=? i) && (i <? Z.of_nat (length l))) with true; [done|].
    symmetry. apply andb_true_iff. split; [apply Z.leb_le|apply Z.ltb_lt]; lia.
  - apply lookup_ge_None in Hx. lia.
Qed.

Lemma getitem_last {A : Type} (l : list A) (x : A) :
  getitem (l ++ [x]) (-1) = Returns x.
Proof.
  unfold getitem. rewrite length_app. simpl.
  replace (-1 + Z.of_nat (length l + 1)) with (Z.of_nat (length l)) by lia.
  replace ((0 <=? Z.of_nat (length l))
           && (Z.of_nat (length l) <? Z.of_nat (length l + 1))) with true.
  - rewrite Nat2Z.id. by rewrite list_lookup_middle.
  - symmetry. apply andb_true_iff.
    split; [apply Z.leb_le|apply Z.ltb_lt]; lia.
Qed.

(** ** Cell queries *)

Lemma data_outside (st : Store) (self : EnvironmentPackagesModel)
    (i : QModelIndex) (role : Z) :
  isValid i = false ∨ ¬ (0 <= ix_row i < rowCount self) →
  data st self i role = Returns QInvalid.
Proof.
  intros H. unfold data, rowCount in *.
  destruct (isValid i); simpl.
  - destruct H as [H|H]; [done|].
    destruct ((0 <=? ix_row i) && (ix_row i <? Z.of_nat (length (packages self))))
      eqn:Hin; [|done].
    apply andb_true_iff in Hin as [H1 H2].
    apply Z.leb_le in H1. apply Z.ltb_lt in H2. lia.
  - done.
Qed.

Lemma data_inside (st : Store) (self : EnvironmentPackagesModel)
    (i : QModelIndex) (role : Z) :
  isValid i = true → 0 <= ix_row i < rowCount self →
  ∃ package,
    packages self !! Z.to_nat (ix_row i) = Some package
    ∧ data st self i role =
        if role =? Qt.DisplayRole then
          if ix_column i =? NAME then Returns (QText (pkg_name (st package)))
          else if ix_column i =? DESCRIPTION then
            Returns (QText (pkg_description (st package)))
          else if ix_column i =? VERSION then
            Returns (QText (pkg_version (st package)))
          else Returns QInvalid
        else if role =? Qt.TextAlignmentRole then Returns (QInt Qt.AlignCenter)
        else if role =? Qt.FontRole then Returns (QFontDelta DEFAULT_SMALL_DELTA)
        else if role =? Qt.BackgroundColorRole then
          if pkg_requested (st package) then Returns (QColor COLOR_OCCURRENCE_4)
          else Returns QInvalid
        else Returns QInvalid.
Proof.
  intros Hv Hr. unfold rowCount in Hr.
  destruct (getitem_in_range (packages self) (ix_row i) Hr) as (package & Hp & Hg).
  exists package. split; [done|].
  unfold data. rewrite Hv, Hg. simpl.
  replace ((0 <=? ix_row i) && (ix_row i <? Z.of_nat (length (packages self))))
    with true.
  - simpl. repeat case_match; done.
  - symmetry. apply andb_true_iff.
    split; [apply Z.leb_le|apply Z.ltb_lt]; lia.
Qed.

(** C4: at a valid index whose row lies in [0, rowCount) and whose column
    is 0, 1 or 2, [data] under the display role returns the name, the
    description or the version of [packages[row]]. *)
Theorem data_display_field (st : Store) (self : EnvironmentPackagesModel)
    (i : QModelIndex) :
  isValid i = true →
  0 <= ix_row i < rowCount self →
  ix_column i = NAME ∨ ix_column i = DESCRIPTION ∨ ix_column i = VERSION →
  ∃ package,
    packages self !! Z.to_nat (ix_row i) = Some package
    ∧ data st self i Qt.DisplayRole =
        Returns (QText (if ix_column i =? NAME then pkg_name (st package)
                        else if ix_column i =? DESCRIPTION
                             then pkg_description (st package)
                             else pkg_version (st package))).
Proof.
  intros Hv Hr Hc.
  destruct (data_inside st self i Qt.DisplayRole Hv Hr) as (package & Hp & Hd).
  exists package. split; [done|]. rewrite Hd.
  destruct Hc as [-> | [-> | ->]]; reflexivity.
Qed.

(** The cell at a row and a column of the table, reached the way a view
    does, through the model's [index]. *)
Lemma data_display_at_cell (st : Store) (self : EnvironmentPackagesModel)
    (r c : Z) :
  0 <= r < rowCount self →
  c = NAME ∨ c = DESCRIPTION ∨ c = VERSION →
  ∃ package,
    packages self !! Z.to_nat r = Some package
    ∧ data st self (index self r c) Qt.DisplayRole =
        Returns (QText (if c =? NAME then pkg_name (st package)
                        else if c =? DESCRIPTION
                             then pkg_description (st package)
                             else pkg_version (st package))).
Proof.
  intros Hr Hc.
  assert (index self r c = {| ix_row := r; ix_column := c; ix_model := true |})
    as Hi.
  { unfold index, columnCount.
    replace ((0 <=? r) && (r <? rowCount self)) with true
      by (symmetry; apply andb_true_iff;
          split; [apply Z.leb_le|apply Z.ltb_lt]; lia).
    by destruct Hc as [-> | [-> | ->]]. }
  rewrite Hi.
  destruct (data_inside st self {| ix_row := r; ix_column := c; ix_model := true |}
              Qt.DisplayRole) as (package & Hp & Hd).
  - unfold isValid. simpl. rewrite andb_true_r. apply andb_true_iff.
    split; apply Z.leb_le; [lia|]. by destruct Hc as [-> | [-> | ->]].
  - done.
  - exists package. split; [done|]. rewrite Hd. simpl.
    destruct Hc as [-> | [-> | ->]]; reflexivity.
Qed.

(** C8: [data] returns the empty value, and raises nothing, for every
    index whose row lies outside [0, rowCount), whatever the column and the
    role; and, under the display role, for a row inside the table with a
    column other than 0, 1 and 2. *)
Theorem data_out_of_range_empty (st : Store) (self : EnvironmentPackagesModel)
    (i : QModelIndex) (role : Z) :
  (¬ (0 <= ix_row i < rowCount self) → data st self i role = Returns QInvalid)
  ∧ (0 <= ix_row i < rowCount self →
     ix_column i ≠ NAME → ix_column i ≠ DESCRIPTION → ix_column i ≠ VERSION →
     data st self i Qt.DisplayRole = Returns QInvalid).
Proof.
  split.
  - intros H. apply data_outside. by right.
  - intros Hr H0 H1 H2.
    destruct (isValid i) eqn:Hv; [|apply data_outside; by left].
    destruct (data_inside st self i Qt.DisplayRole Hv Hr) as (package & _ & ->).
    apply Z.eqb_neq in H0, H1, H2. simpl. by rewrite H0, H1, H2.
Qed.

(** ** Row navigation *)

Lemma selectRow_inside (self : EnvironmentPackagesTable) (k : Z) :
  0 <= k < rowCount (source_model self) → selects self (selectRow k self) k.
Proof.
  intros Hk. unfold selects, selectRow, index, columnCount.
  replace ((0 <=? k) && (k <? rowCount (source_model self))) with true.
  - simpl. unfold isValid. simpl.
    split; [done|]. split; [|done].
    rewrite !andb_true_r. apply Z.leb_le. lia.
  - symmetry. apply andb_true_iff.
    split; [apply Z.leb_le|apply Z.ltb_lt]; lia.
Qed.

(** C7: in a table of [n] rows, [n] positive, [next_row] selects row 0
    from row [n-1] and row [r+1] from a row [r] below [n-1] (also from
    [-1], no current row); [previous_row] selects row [n-1] from row 0 and
    row [r-1] from a row [r] above 0. *)
Theorem next_previous_row_wrap (self : EnvironmentPackagesTable) :
  let n := rowCount (source_model self) in
  let r := ix_row (currentIndex self) in
  0 < n →
  (r = n - 1 → selects self (next_row self) 0)
  ∧ (-1 <= r < n - 1 → selects self (next_row self) (r + 1))
  ∧ (r = 0 → selects self (previous_row self) (n - 1))
  ∧ (0 < r < n → selects self (previous_row self) (r - 1)).
Proof.
  intros n r Hn. subst n r. unfold next_row, previous_row.
  repeat split_and.
  - intros Hr. rewrite Hr.
    replace (rowCount (source_model self) - 1 + 1 =? rowCount (source_model self))
      with true by (symmetry; apply Z.eqb_eq; lia).
    apply selectRow_inside. lia.
  - intros Hr.
    replace (ix_row (currentIndex self) + 1 =? rowCount (source_model self))
      with false by (symmetry; apply Z.eqb_neq; lia).
    apply selectRow_inside. lia.
  - intros Hr. rewrite Hr. simpl. apply selectRow_inside. lia.
  - intros Hr.
    replace (ix_row (currentIndex self) =? 0)
      with false by (symmetry; apply Z.eqb_neq; lia).
    apply selectRow_inside. lia.
Qed.

(** ** Loading: the two paths of [load_packages] *)

Lemma load_packages_idle (only_requested : bool) (packages0 : option (list ref))
    (self : EnvironmentPackagesTable) :
  supplied packages0 self = [] →
  load_packages only_requested packages0 self = self.
Proof.
  unfold supplied, load_packages. destruct self as [st [al ps mp] cur cs].
  destruct packages0 as [[|x l]|]; simpl; intros H;
    try discriminate H; rewrite H; reflexivity.
Qed.

Lemma load_packages_installs (only_requested : bool)
    (packages0 : option (list ref)) (self : EnvironmentPackagesTable) :
  supplied packages0 self ≠ [] →
  load_packages only_requested packages0 self =
    let l := supplied packages0 self in
    let packages2 := shown only_requested (store self) l in
    let st := assign_indices (store self) packages2 in
    sortByColumn NAME Qt.AscendingOrder
      (adjust_cells
         (reset
            (with_model
               {| all_packages := l; packages := packages2;
                  packages_map := name_map st packages2 |}
               (with_store st self)))).
Proof.
  unfold supplied, load_packages, shown.
  destruct self as [st [al ps mp] cur cs].
  destruct packages0 as [[|x l]|]; simpl; try done;
    destruct al as [|y al]; simpl; done.
Qed.

Lemma adjust_cells_state (self : EnvironmentPackagesTable) :
  store (adjust_cells self) = store self
  ∧ source_model (adjust_cells self) = source_model self
  ∧ currentIndex (adjust_cells self) = currentIndex self.
Proof.
  unfold adjust_cells.
  destruct (packages (source_model self)); simpl; done.
Qed.

Lemma adjust_cells_calls (self : EnvironmentPackagesTable) :
  ∃ widths,
    calls (adjust_cells self) =
      calls self ++ widths ++ [SetStretchLastSection true].
Proof.
  unfold adjust_cells.
  destruct (packages (source_model self)) as [|p l]; simpl.
  - by exists [].
  - eexists [_; _]. by rewrite <- !app_assoc.
Qed.

Lemma load_packages_store (only_requested : bool)
    (packages0 : option (list ref)) (self : EnvironmentPackagesTable) :
  supplied packages0 self ≠ [] →
  store (load_packages only_requested packages0 self) =
    assign_indices (store self)
      (shown only_requested (store self) (supplied packages0 self)).
Proof.
  intros H. rewrite load_packages_installs by done. cbv zeta.
  unfold sortByColumn, with_model at 1. cbn [store log].
  by rewrite (proj1 (adjust_cells_state _)).
Qed.

Lemma load_packages_model (only_requested : bool)
    (packages0 : option (list ref)) (self : EnvironmentPackagesTable) :
  supplied packages0 self ≠ [] →
  source_model (load_packages only_requested packages0 self) =
    let l := supplied packages0 self in
    let packages2 := shown only_requested (store self) l in
    {| all_packages := l; packages := packages2;
       packages_map :=
         name_map (assign_indices (store self) packages2) packages2 |}.
Proof.
  intros H. rewrite load_packages_installs by done. cbv zeta.
  unfold sortByColumn, with_model at 1, sort. cbn [source_model log].
  by rewrite (proj1 (proj2 (adjust_cells_state _))).
Qed.

Lemma load_packages_calls (only_requested : bool)
    (packages0 : option (list ref)) (self : EnvironmentPackagesTable) :
  supplied packages0 self ≠ [] →
  ∃ widths,
    calls (load_packages only_requested packages0 self) =
      calls self ++ [BeginResetModel; EndResetModel] ++ widths
        ++ [SetStretchLastSection true; SortByColumn NAME Qt.AscendingOrder].
Proof.
  intros H. rewrite load_packages_installs by done. cbv zeta.
  unfold sortByColumn, with_model at 1. cbn [calls log].
  match goal with |- context [adjust_cells ?t] =>
    destruct (adjust_cells_calls t) as [widths Hw] end.
  exists widths. rewrite Hw. simpl. by rewrite <- !app_assoc.
Qed.

(** ** The index loop *)

Lemma enumerate_snoc {A : Type} (start : Z) (l : list A) (x : A) :
  enumerate start (l ++ [x]) =
    enumerate start l ++ [(start + Z.of_nat (length l), x)].
Proof.
  revert start. induction l as [|y l IH]; intros start; simpl.
  - by rewrite Z.add_0_r.
  - rewrite IH.
    by replace (start + 1 + Z.of_nat (length l))
      with (start + Z.of_nat (S (length l))) by lia.
Qed.

Lemma assign_indices_snoc (st : Store) (l : list ref) (x : ref) :
  assign_indices st (l ++ [x]) =
    <[x := set_index (Z.of_nat (length l)) (assign_indices st l x)]>
      (assign_indices st l).
Proof.
  unfold assign_indices. by rewrite enumerate_snoc, foldl_snoc.
Qed.

Lemma assign_indices_notin (st : Store) (l : list ref) (p : ref) :
  p ∉ l → assign_indices st l p = st p.
Proof.
  induction l as [|x l IH] using rev_ind; intros Hp; [done|].
  rewrite assign_indices_snoc.
  apply not_elem_of_app in Hp as [Hl Hx].
  rewrite fn_lookup_insert_ne; [by apply IH|].
  intros ->. apply Hx. by apply list_elem_of_singleton.
Qed.

Lemma assign_indices_fields (st : Store) (l : list ref) (p : ref) :
  pkg_name (assign_indices st l p) = pkg_name (st p)
  ∧ pkg_description (assign_indices st l p) = pkg_description (st p)
  ∧ pkg_version (assign_indices st l p) = pkg_version (st p)
  ∧ pkg_requested (assign_indices st l p) = pkg_requested (st p).
Proof.
  induction l as [|x l IH] using rev_ind; [done|].
  rewrite assign_indices_snoc.
  destruct (decide (x = p)) as [->|Hne].
  - by rewrite fn_lookup_insert.
  - by rewrite fn_lookup_insert_ne.
Qed.

Lemma assign_indices_last (st : Store) (l : list ref) (i : nat) (p : ref) :
  l !! i = Some p →
  (∀ j, (i < j)%nat → l !! j ≠ Some p) →
  pkg_index (assign_indices st l p) = Some (Z.of_nat i).
Proof.
  revert i. induction l as [|x l IH] using rev_ind; intros i Hi Hlast; [done|].
  rewrite assign_indices_snoc.
  destruct (decide (x = p)) as [->|Hne].
  - rewrite fn_lookup_insert. simpl. do 2 f_equal.
    apply lookup_lt_Some in Hi as Hlt. rewrite length_app in Hlt. simpl in Hlt.
    destruct (decide (i = length l)) as [->|Hi']; [done|].
    exfalso. apply (Hlast (length l)); [lia|]. apply list_lookup_middle. done.
  - rewrite fn_lookup_insert_ne by done.
    assert (i < length l)%nat as Hlt.
    { apply lookup_lt_Some in Hi as Hlt. rewrite length_app in Hlt.
      simpl in Hlt. destruct (decide (i = length l)) as [->|]; [|lia].
      rewrite list_lookup_middle in Hi by done. congruence. }
    apply IH.
    + by rewrite lookup_app_l in Hi.
    + intros j Hj Hlj. apply (Hlast j Hj).
      rewrite lookup_app_l; [done|]. by eapply lookup_lt_Some.
Qed.

Lemma assign_indices_in (st : Store) (l : list ref) (p : ref) :
  p ∈ l →
  ∃ i, l !! i = Some p
       ∧ pkg_index (assign_indices st l p) = Some (Z.of_nat i).
Proof.
  induction l as [|x l IH] using rev_ind; intros Hp.
  - by apply elem_of_nil in Hp.
  - rewrite assign_indices_snoc.
    destruct (decide (x = p)) as [->|Hne].
    + exists (length l). rewrite fn_lookup_insert.
      split; [by apply list_lookup_middle|done].
    + apply elem_of_app in Hp as [Hp|Hp].
      * destruct (IH Hp) as (i & Hi & Hidx). exists i.
        rewrite fn_lookup_insert_ne by done. split; [|done].
        rewrite lookup_app_l; [done|]. by eapply lookup_lt_Some.
      * apply list_elem_of_singleton in Hp. congruence.
Qed.

(** ** The name lookup *)

Lemma name_map_snoc (st : Store) (l : list ref) (x : ref) :
  name_map st (l ++ [x]) = <[pkg_name (st x) := x]> (name_map st l).
Proof. unfold name_map. by rewrite foldl_snoc. Qed.

Lemma name_map_sound (st : Store) (l : list ref) (k : string) (p : ref) :
  name_map st l !! k = Some p → p ∈ l ∧ pkg_name (st p) = k.
Proof.
  induction l as [|x l IH] using rev_ind; intros H.
  - unfold name_map in H. simpl in H. by rewrite lookup_empty in H.
  - rewrite name_map_snoc in H.
    destruct (decide (pkg_name (st x) = k)) as [Hk|Hk].
    + rewrite Hk, lookup_insert_eq in H. injection H as <-.
      split; [|done]. apply elem_of_app. right. by apply list_elem_of_singleton.
    + rewrite lookup_insert_ne in H by done.
      destruct (IH H) as [Hin Hn]. split; [|done].
      apply elem_of_app. by left.
Qed.

Lemma name_map_keys (st : Store) (l : list ref) (p : ref) :
  p ∈ l → is_Some (name_map st l !! pkg_name (st p)).
Proof.
  induction l as [|x l IH] using rev_ind; intros Hp.
  - by apply elem_of_nil in Hp.
  - rewrite name_map_snoc.
    destruct (decide (pkg_name (st x) = pkg_name (st p))) as [Hk|Hk].
    + rewrite Hk, lookup_insert_eq. by eexists.
    + rewrite lookup_insert_ne by done. apply IH.
      apply elem_of_app in Hp as [Hp|Hp]; [done|].
      apply list_elem_of_singleton in Hp. congruence.
Qed.

Lemma name_map_unique (st : Store) (l : list ref) :
  NoDup (map (λ p, pkg_name (st p)) l) →
  (∀ p, p ∈ l → name_map st l !! pkg_name (st p) = Some p)
  ∧ size (name_map st l) = length l.
Proof.
  induction l as [|x l IH] using rev_ind; intros Hnd.
  - split; [intros p Hp; by apply elem_of_nil in Hp|done].
  - rewrite map_app in Hnd. apply NoDup_app in Hnd as (Hl & Hx & _).
    destruct (IH Hl) as [IHl IHs].
    assert (∀ q, q ∈ l → pkg_name (st q) ≠ pkg_name (st x)) as Hfresh.
    { intros q Hq Heq. apply (Hx (pkg_name (st q))).
      - apply list_elem_of_fmap. by exists q.
      - simpl. rewrite Heq. by apply list_elem_of_singleton. }
    rewrite name_map_snoc. split.
    + intros p Hp. apply elem_of_app in Hp as [Hp|Hp].
      * rewrite lookup_insert_ne; [by apply IHl|].
        intros Heq. by apply (Hfresh p Hp).
      * apply list_elem_of_singleton in Hp as ->. by rewrite lookup_insert_eq.
    + rewrite map_size_insert_None.
      * rewrite IHs, length_app. simpl. lia.
      * destruct (name_map st l !! pkg_name (st x)) as [q|] eqn:Hq; [|done].
        apply name_map_sound in Hq as [Hq Hn]. by destruct (Hfresh q Hq).
Qed.

(** ** Loading: what is displayed *)

Lemma filter_requested_subsequence (st : Store) (ps : list ref) :
  filter (λ package, pkg_requested (st package)) ps =
    requested_subsequence st ps.
Proof.
  induction ps as [|p ps IH]; [done|].
  rewrite filter_cons. simpl.
  destruct (pkg_requested (st p)); simpl; by rewrite IH.
Qed.

Lemma requested_subsequence_ext (st st' : Store) (ps : list ref) :
  (∀ p, pkg_requested (st' p) = pkg_requested (st p)) →
  requested_subsequence st' ps = requested_subsequence st ps.
Proof.
  intros H. induction ps as [|p ps IH]; [done|].
  simpl. by rewrite H, IH.
Qed.

Lemma supplied_list (ps : list ref) (self : EnvironmentPackagesTable) :
  ps ≠ [] → supplied (Some ps) self = ps.
Proof. by destruct ps. Qed.

Lemma load_packages_displays (only_requested : bool)
    (packages0 : option (list ref)) (self : EnvironmentPackagesTable) :
  supplied packages0 self ≠ [] →
  all_packages (source_model (load_packages only_requested packages0 self))
    = supplied packages0 self
  ∧ packages (source_model (load_packages only_requested packages0 self))
    = shown only_requested (store self) (supplied packages0 self).
Proof. intros H. by rewrite load_packages_model. Qed.

(** C3, amended: for every non-empty list [ps], after
    [load_packages(only_requested=True, packages=ps)] the displayed list
    is the subsequence of [ps] whose records are flagged requested, in the
    order of [ps]; the flags read the same before and after the load. *)
Theorem load_only_requested_subsequence (ps : list ref)
    (self : EnvironmentPackagesTable) :
  ps ≠ [] →
  let after := load_packages true (Some ps) self in
  packages (source_model after) = requested_subsequence (store self) ps
  ∧ packages (source_model after) = requested_subsequence (store after) ps
  ∧ packages (source_model after) `sublist_of` ps.
Proof.
  intros Hps after. subst after.
  assert (supplied (Some ps) self ≠ []) as Hs by by rewrite supplied_list.
  destruct (load_packages_displays true (Some ps) self Hs) as [_ Hd].
  rewrite supplied_list in Hd by done. unfold shown in Hd.
  rewrite Hd. split_and!.
  - apply filter_requested_subsequence.
  - rewrite filter_requested_subsequence. symmetry.
    apply requested_subsequence_ext. intros p.
    rewrite load_packages_store by done. apply assign_indices_fields.
  - apply sublist_filter.
Qed.

(** C5: after a load stored the full list [ps], a load without a list
    does exactly what a load given [ps] does, for either value of the
    flag: the two resulting tables are equal, so in particular are the
    displayed packages and the name lookup. *)
Theorem load_without_list_reuses_last (only_requested0 only_requested : bool)
    (ps : list ref) (self0 : EnvironmentPackagesTable) :
  ps ≠ [] →
  let self := load_packages only_requested0 (Some ps) self0 in
  all_packages (source_model self) = ps
  ∧ load_packages only_requested None self =
      load_packages only_requested (Some ps) self.
Proof.
  intros Hps self.
  assert (all_packages (source_model self) = ps) as Hall.
  { subst self.
    assert (supplied (Some ps) self0 ≠ []) as Hs by by rewrite supplied_list.
    rewrite (proj1 (load_packages_displays _ _ _ Hs)).
    by apply supplied_list. }
  split; [done|].
  assert (supplied None self = ps) as HN by done.
  assert (supplied (Some ps) self = ps) as HS by by apply supplied_list.
  rewrite !load_packages_installs by congruence.
  by rewrite HN, HS.
Qed.

(** C6, amended: after a load that installs a list, every entry of the
    name lookup is a displayed package under its own name and every
    displayed name is a key; when the displayed names are pairwise
    distinct, each displayed package is the entry under its name and
    there are as many entries as displayed packages. *)
Theorem name_lookup_matches_displayed (only_requested : bool)
    (packages0 : option (list ref)) (self : EnvironmentPackagesTable) :
  supplied packages0 self ≠ [] →
  let after := load_packages only_requested packages0 self in
  let m := source_model after in
  (∀ k q, packages_map m !! k = Some q →
          q ∈ packages m ∧ pkg_name (store after q) = k)
  ∧ (∀ q, q ∈ packages m →
          is_Some (packages_map m !! pkg_name (store after q)))
  ∧ (NoDup (map (λ q, pkg_name (store after q)) (packages m)) →
     (∀ q, q ∈ packages m →
           packages_map m !! pkg_name (store after q) = Some q)
     ∧ size (packages_map m) = length (packages m)).
Proof.
  intros Hs after m. subst m after.
  rewrite load_packages_model, load_packages_store by done. cbn zeta.
  cbn [packages packages_map]. split_and!.
  - apply name_map_sound.
  - apply name_map_keys.
  - apply name_map_unique.
Qed.

(** C9: a load that installs a list writes the indices into the shared
    records.  The displayed list is taken from the stored full list, the
    same references; a displayed record carries the position of its last
    occurrence in the displayed list (its only one when no record is
    listed twice); a record that is not displayed is left as it was; no
    other field of any record changes.  With [only_requested=True] the
    requested records of the stored full list carry their positions in the
    filtered list and the other ones are untouched. *)
Theorem load_assigns_indices_in_place (only_requested : bool)
    (packages0 : option (list ref)) (self : EnvironmentPackagesTable) :
  supplied packages0 self ≠ [] →
  let after := load_packages only_requested packages0 self in
  let m := source_model after in
  (∀ q, q ∈ packages m → q ∈ all_packages m)
  ∧ (∀ i q, packages m !! i = Some q →
            (∀ j, (i < j)%nat → packages m !! j ≠ Some q) →
            pkg_index (store after q) = Some (Z.of_nat i))
  ∧ (∀ q, q ∈ packages m →
          ∃ i, packages m !! i = Some q
               ∧ pkg_index (store after q) = Some (Z.of_nat i))
  ∧ (∀ q, q ∉ packages m → store after q = store self q)
  ∧ (∀ q, pkg_name (store after q) = pkg_name (store self q)
          ∧ pkg_description (store after q) = pkg_description (store self q)
          ∧ pkg_version (store after q) = pkg_version (store self q)
          ∧ pkg_requested (store after q) = pkg_requested (store self q))
  ∧ (only_requested = true →
     packages m = requested_subsequence (store self) (all_packages m)
     ∧ ∀ q, q ∈ all_packages m →
         (pkg_requested (store self q) = true →
          ∃ i, packages m !! i = Some q
               ∧ pkg_index (store after q) = Some (Z.of_nat i))
         ∧ (pkg_requested (store self q) = false →
            store after q = store self q)).
Proof.
  intros Hs after m. subst m after.
  rewrite load_packages_model, load_packages_store by done. cbn zeta.
  cbn [packages all_packages]. split_and!.
  - intros q. unfold shown. destruct only_requested; [|done].
    rewrite list_elem_of_filter. by intros [_ Hq].
  - intros i q. apply assign_indices_last.
  - intros q. apply assign_indices_in.
  - intros q. apply assign_indices_notin.
  - intros q. apply assign_indices_fields.
  - intros ->. unfold shown. split; [apply filter_requested_subsequence|].
    intros q Hq. split.
    + intros Hr. apply assign_indices_in, list_elem_of_filter.
      split; [by rewrite Hr|done].
    + intros Hr. apply assign_indices_notin. rewrite list_elem_of_filter.
      intros [Hq' _]. by rewrite Hr in Hq'.
Qed.

(** C10, amended: a load given no list or an empty list, while the stored
    full list is empty, returns the table as it was: model, records and
    the log of toolkit calls, hence no reset.  An empty list never
    replaces the stored full list; a stored full list that is not empty
    stays so through every load, and with [only_requested=False] so does
    the displayed list. *)
Theorem load_empty_keeps_state (only_requested : bool)
    (packages0 : option (list ref)) (self : EnvironmentPackagesTable) :
  (truthy packages0 = false → all_packages (source_model self) = [] →
   load_packages only_requested packages0 self = self)
  ∧ all_packages (source_model (load_packages only_requested (Some []) self))
    = all_packages (source_model self)
  ∧ (all_packages (source_model self) ≠ [] →
     all_packages (source_model (load_packages only_requested packages0 self))
       ≠ []
     ∧ packages (source_model (load_packages false packages0 self)) ≠ []).
Proof.
  split_and!.
  - intros Ht Hall. apply load_packages_idle.
    destruct packages0 as [[|x l]|]; done.
  - destruct (decide (supplied (Some []) self = [])) as [He|Hne].
    + by rewrite load_packages_idle.
    + by rewrite (proj1 (load_packages_displays _ _ _ Hne)).
  - intros Hall.
    assert (supplied packages0 self ≠ []) as Hs.
    { destruct packages0 as [[|x l]|]; done. }
    split.
    + by rewrite (proj1 (load_packages_displays _ _ _ Hs)).
    + by rewrite (proj2 (load_packages_displays _ _ _ Hs)).
Qed.

(** ** The context menu *)

Lemma contextMenuEvent_on_row (self : EnvironmentPackagesTable)
    (event : QContextMenuEvent) :
  0 <= rowAt self (pos event).2 < rowCount (source_model self) →
  ∃ package,
    packages (source_model self) !! Z.to_nat (rowAt self (pos event).2)
      = Some package
    ∧ if pkg_requested (store self package)
      then ∃ after, contextMenuEvent self event = Returns after
                    ∧ menu_shown self after
      else contextMenuEvent self event = Returns self.
Proof.
  intros Hr. unfold rowCount in Hr.
  destruct (getitem_in_range _ _ Hr) as (package & Hp & Hg).
  exists package. split; [done|].
  unfold contextMenuEvent.
  destruct (packages (source_model self)) as [|x l] eqn:Hl;
    [simpl in Hr; lia|].
  rewrite Hg. simpl.
  destruct (pkg_requested (store self package)); [|done].
  eexists. split; [done|].
  unfold menu_shown. simpl. eexists _, _, _.
  split; [by rewrite <- app_assoc|done].
Qed.

(** A click under the last row: [rowAt] yields -1, which indexes the last
    displayed package. *)
Lemma contextMenuEvent_off_rows (self : EnvironmentPackagesTable)
    (event : QContextMenuEvent) (l : list ref) (package : ref) :
  rowAt self (pos event).2 = -1 →
  packages (source_model self) = l ++ [package] →
  if pkg_requested (store self package)
  then ∃ after, contextMenuEvent self event = Returns after
                ∧ menu_shown self after
  else contextMenuEvent self event = Returns self.
Proof.
  intros Hr Hl. unfold contextMenuEvent. rewrite Hr, Hl.
  rewrite getitem_last.
  destruct l as [|x l]; simpl;
    (destruct (pkg_requested (store self package)); [|done]);
    (eexists; split; [done|]);
    unfold menu_shown; simpl; eexists _, _, _;
    (split; [by rewrite <- app_assoc|done]).
Qed.

(** ** Further properties of the cell and header queries *)

Lemma getitem_from_end {A : Type} (l : list A) (i : Z) :
  0 <= i < Z.of_nat (length l) →
  getitem l (i - Z.of_nat (length l)) = getitem l i.
Proof.
  intros Hi. unfold getitem.
  replace (i - Z.of_nat (length l) <? 0) with true
    by (symmetry; apply Z.ltb_lt; lia).
  replace (i <? 0) with false by (symmetry; apply Z.ltb_ge; lia).
  by replace (i - Z.of_nat (length l) + Z.of_nat (length l)) with i by lia.
Qed.

Lemma getitem_outside {A : Type} (l : list A) (i : Z) :
  i < - Z.of_nat (length l) ∨ Z.of_nat (length l) <= i →
  getitem l i = Raises IndexError.
Proof.
  intros Hi. unfold getitem.
  destruct (i <? 0) eqn:Hneg.
  - apply Z.ltb_lt in Hneg.
    replace (0 <=? i + Z.of_nat (length l)) with false
      by (symmetry; apply Z.leb_gt; lia).
    done.
  - apply Z.ltb_ge in Hneg.
    replace (i <? Z.of_nat (length l)) with false
      by (symmetry; apply Z.ltb_ge; lia).
    by rewrite andb_false_r.
Qed.

(** X1: [data] never raises: whatever the records, the model, the index and
    the role, it returns a value. *)
Theorem data_never_raises (st : Store) (self : EnvironmentPackagesModel)
    (i : QModelIndex) (role : Z) :
  ∃ v, data st self i role = Returns v.
Proof.
  destruct (isValid i) eqn:Hv;
    [|exists QInvalid; apply data_outside; by left].
  destruct (decide (0 <= ix_row i < rowCount self)) as [Hr|Hr];
    [|exists QInvalid; apply data_outside; by right].
  destruct (data_inside st self i role Hv Hr) as (package & _ & ->).
  repeat case_match; by eexists.
Qed.

(** X2: at a cell of the table, the decoration roles do not depend on the
    column: centred text, the small font, and the highlight colour
    exactly when the package of the row is requested. *)
Theorem data_decoration_roles (st : Store) (self : EnvironmentPackagesModel)
    (i : QModelIndex) :
  isValid i = true →
  0 <= ix_row i < rowCount self →
  ∃ package,
    packages self !! Z.to_nat (ix_row i) = Some package
    ∧ data st self i Qt.TextAlignmentRole = Returns (QInt 132)
    ∧ data st self i Qt.FontRole = Returns (QFontDelta DEFAULT_SMALL_DELTA)
    ∧ data st self i Qt.BackgroundColorRole =
        Returns (if pkg_requested (st package)
                 then QColor COLOR_OCCURRENCE_4 else QInvalid).
Proof.
  intros Hv Hr.
  destruct (data_inside st self i Qt.TextAlignmentRole Hv Hr)
    as (package & Hp & Ha).
  destruct (data_inside st self i Qt.FontRole Hv Hr) as (p2 & Hp2 & Hf).
  destruct (data_inside st self i Qt.BackgroundColorRole Hv Hr)
    as (p3 & Hp3 & Hb).
  assert (p2 = package) as -> by congruence.
  assert (p3 = package) as -> by congruence.
  exists package. split; [done|]. split; [exact Ha|]. split; [exact Hf|].
  rewrite Hb. simpl. by destruct (pkg_requested (st package)).
Qed.

(** X3: [row] and [get_package_info] index the displayed list without a
    guard: a position in [0, n) and the same position counted from the
    end, [i - n], give the same package; any index outside [-n, n)
    raises [IndexError]. *)
Theorem row_unguarded_indexing (self : EnvironmentPackagesTable) (i : Z) :
  let n := rowCount (source_model self) in
  get_package_info self i = row (source_model self) i
  ∧ (0 <= i < n →
     ∃ package,
       packages (source_model self) !! Z.to_nat i = Some package
       ∧ row (source_model self) i = Returns package
       ∧ row (source_model self) (i - n) = Returns package)
  ∧ (i < - n ∨ n <= i → row (source_model self) i = Raises IndexError).
Proof.
  intros n. subst n. unfold get_package_info, row, rowCount.
  split; [done|]. split.
  - intros Hi.
    destruct (getitem_in_range _ _ Hi) as (package & Hp & Hg).
    exists package. by rewrite getitem_from_end, Hg.
  - apply getitem_outside.
Qed.

(** X4: a horizontal header has a label under the display role exactly for
    the sections below [columnCount]; a vertical header has none. *)
Theorem headerData_labels (self : EnvironmentPackagesModel) (section : Z) :
  (headerData section Horizontal Qt.DisplayRole ≠ QInvalid
   ↔ 0 <= section < columnCount self)
  ∧ headerData NAME Horizontal Qt.DisplayRole = QText (translate "Name")
  ∧ headerData DESCRIPTION Horizontal Qt.DisplayRole
    = QText (translate "Description")
  ∧ headerData VERSION Horizontal Qt.DisplayRole
    = QText (translate "Version")
  ∧ headerData section Vertical Qt.DisplayRole = QInvalid.
Proof.
  unfold headerData, columnCount, NAME, DESCRIPTION, VERSION. simpl.
  split; [|done].
  destruct (section =? 0) eqn:H0; [apply Z.eqb_eq in H0; split; [lia|done]|].
  destruct (section =? 1) eqn:H1; [apply Z.eqb_eq in H1; split; [lia|done]|].
  destruct (section =? 2) eqn:H2; [apply Z.eqb_eq in H2; split; [lia|done]|].
  apply Z.eqb_neq in H0, H1, H2. split; [done|lia].
Qed.

(** X5: the alignment of a header does not depend on the section, in range or
    not: a horizontal header is centred like the cells, a vertical one is
    right-aligned; every role other than alignment and display is
    empty. *)
Theorem headerData_alignment (st : Store) (self : EnvironmentPackagesModel)
    (i : QModelIndex) (section role : Z) (orientation : Orientation) :
  headerData section Vertical Qt.TextAlignmentRole = QInt 130
  ∧ headerData section Horizontal Qt.TextAlignmentRole = QInt 132
  ∧ (isValid i = true → 0 <= ix_row i < rowCount self →
     data st self i Qt.TextAlignmentRole
       = Returns (headerData section Horizontal Qt.TextAlignmentRole))
  ∧ (role ≠ Qt.TextAlignmentRole → role ≠ Qt.DisplayRole →
     headerData section orientation role = QInvalid).
Proof.
  split; [done|]. split; [done|]. split.
  - intros Hv Hr.
    by destruct (data_inside st self i Qt.TextAlignmentRole Hv Hr)
      as (package & _ & ->).
  - intros Ha Hd. unfold headerData.
    apply Z.eqb_neq in Ha, Hd. by rewrite Ha, Hd.
Qed.

(** ** Column widths and the calls of a load *)

Lemma py_max_bounds (f : ref → Z) (p : ref) (l : list ref) :
  (∀ q, q ∈ p :: l → f q <= py_max (f p) (map f l))
  ∧ ∃ q, q ∈ p :: l ∧ py_max (f p) (map f l) = f q.
Proof.
  unfold py_max. revert p. induction l as [|y l IH]; intros p; simpl.
  - split.
    + intros q Hq. apply list_elem_of_singleton in Hq as ->. lia.
    + exists p. split; [apply list_elem_of_here|done].
  - destruct (Z.max_spec (f p) (f y)) as [[Hlt Hm]|[Hle Hm]]; rewrite Hm.
    + destruct (IH y) as [Hge (q & Hq & Hmax)]. split.
      * intros r Hr. apply elem_of_cons in Hr as [->|Hr]; [|by apply Hge].
        specialize (Hge y (list_elem_of_here _ _)). lia.
      * exists q. split; [by apply list_elem_of_further|done].
    + destruct (IH p) as [Hge (q & Hq & Hmax)]. split.
      * intros r Hr. apply elem_of_cons in Hr as [->|Hr];
          [apply Hge, list_elem_of_here|].
        apply elem_of_cons in Hr as [->|Hr].
        -- specialize (Hge p (list_elem_of_here _ _)). lia.
        -- by apply Hge, list_elem_of_further.
      * exists q. split; [|done].
        apply elem_of_cons in Hq as [->|Hq]; [apply list_elem_of_here|].
        by do 2 apply list_elem_of_further.
Qed.

Lemma adjust_cells_log (self : EnvironmentPackagesTable) :
  match packages (source_model self) with
  | [] => calls (adjust_cells self) = calls self ++ [SetStretchLastSection true]
  | p :: l =>
      calls (adjust_cells self) =
        calls self
        ++ [SetColumnWidth NAME
              (py_max (fm_width (pkg_name (store self p)))
                 (map (λ q, fm_width (pkg_name (store self q))) l));
            SetColumnWidth DESCRIPTION
              (py_max (fm_width (pkg_description (store self p)))
                 (map (λ q, fm_width (pkg_description (store self q))) l));
            SetStretchLastSection true]
  end.
Proof.
  unfold adjust_cells.
  destruct (packages (source_model self)) as [|p l]; simpl; [done|].
  by rewrite <- !app_assoc.
Qed.

(** X6: [adjust_cells] touches neither the records, the model nor the
    current index.  On an empty table it only stretches the last section;
    otherwise it sets the name column, then the description column, each
    to a width that no displayed text of the column exceeds and that one
    of them has. *)
Theorem adjust_cells_widths (self : EnvironmentPackagesTable) :
  store (adjust_cells self) = store self
  ∧ source_model (adjust_cells self) = source_model self
  ∧ currentIndex (adjust_cells self) = currentIndex self
  ∧ (packages (source_model self) = [] →
     calls (adjust_cells self) = calls self ++ [SetStretchLastSection true])
  ∧ (packages (source_model self) ≠ [] →
     ∃ wn wd,
       calls (adjust_cells self) =
         calls self ++ [SetColumnWidth NAME wn; SetColumnWidth DESCRIPTION wd;
                        SetStretchLastSection true]
       ∧ (∀ q, q ∈ packages (source_model self) →
               fm_width (pkg_name (store self q)) <= wn
               ∧ fm_width (pkg_description (store self q)) <= wd)
       ∧ (∃ q, q ∈ packages (source_model self)
               ∧ wn = fm_width (pkg_name (store self q)))
       ∧ (∃ q, q ∈ packages (source_model self)
               ∧ wd = fm_width (pkg_description (store self q)))).
Proof.
  destruct (adjust_cells_state self) as (Hst & Hm & Hc).
  split; [done|]. split; [done|]. split; [done|].
  pose proof (adjust_cells_log self) as Hlog.
  destruct (packages (source_model self)) as [|p l]; [by split|].
  split; [done|]. intros _.
  destruct (py_max_bounds (λ q, fm_width (pkg_name (store self q))) p l)
    as [Hn1 Hn2].
  destruct (py_max_bounds (λ q, fm_width (pkg_description (store self q))) p l)
    as [Hd1 Hd2].
  eexists _, _. split; [exact Hlog|]. split; [|by split].
  intros q Hq. split; [by apply Hn1|by apply Hd1].
Qed.

(** X7: a load that installs a list signals one reset, begin then end, then
    resizes (no column width when nothing is displayed), and ends with
    the request to sort by name, ascending; the current index is dropped
    by the reset. *)
Theorem load_packages_signals (only_requested : bool)
    (packages0 : option (list ref)) (self : EnvironmentPackagesTable) :
  supplied packages0 self ≠ [] →
  let after := load_packages only_requested packages0 self in
  currentIndex after = invalid_index
  ∧ ∃ widths,
      calls after =
        calls self ++ [BeginResetModel; EndResetModel] ++ widths
          ++ [SetStretchLastSection true; SortByColumn NAME Qt.AscendingOrder]
      ∧ (packages (source_model after) = [] → widths = [])
      ∧ (packages (source_model after) ≠ [] →
         ∃ wn wd, widths = [SetColumnWidth NAME wn;
                            SetColumnWidth DESCRIPTION wd]).
Proof.
  intros Hs after. subst after.
  rewrite load_packages_model by done.
  rewrite load_packages_installs by done. cbv zeta.
  unfold sortByColumn, with_model at 1. cbn [currentIndex calls log packages].
  split; [by rewrite (proj2 (proj2 (adjust_cells_state _)))|].
  match goal with |- context [adjust_cells ?t] =>
    pose proof (adjust_cells_log t) as Hlog end.
  cbn [source_model with_model reset with_current log packages] in Hlog.
  destruct (shown only_requested (store self) (supplied packages0 self))
    as [|p l].
  - exists []. unfold with_model at 1. cbn [calls log]. rewrite Hlog. simpl.
    split; [by rewrite <- !app_assoc|done].
  - eexists [_; _]. unfold with_model at 1. cbn [calls log]. rewrite Hlog.
    simpl. split; [by rewrite <- !app_assoc|]. split; [done|].
    intros _. by eexists _, _.
Qed.

(** ** Loading again *)

Lemma shown_ext (only_requested : bool) (st st' : Store) (l : list ref) :
  (∀ q, same_but_index (st' q) (st q)) →
  shown only_requested st' l = shown only_requested st l.
Proof.
  intros H. unfold shown. destruct only_requested; [|done].
  rewrite !filter_requested_subsequence.
  apply requested_subsequence_ext. intros q. apply H.
Qed.

Lemma name_map_ext (st st' : Store) (l : list ref) :
  (∀ q, same_but_index (st' q) (st q)) →
  name_map st' l = name_map st l.
Proof.
  intros H. induction l as [|x l IH] using rev_ind; [done|].
  rewrite !name_map_snoc, IH. by rewrite (proj1 (H x)).
Qed.

Lemma assign_indices_same_but_index (st : Store) (l : list ref) (q : ref) :
  same_but_index (assign_indices st l q) (st q).
Proof. apply assign_indices_fields. Qed.

Lemma set_index_same (idx : Z) (p1 p2 : Package) :
  same_but_index p1 p2 → set_index idx p1 = set_index idx p2.
Proof.
  intros (Hn & Hd & Hv & Hr). unfold set_index. by rewrite Hn, Hd, Hv, Hr.
Qed.

Lemma assign_indices_agree (st1 st2 : Store) (l : list ref) (q : ref) :
  (∀ r, same_but_index (st1 r) (st2 r)) →
  q ∈ l → assign_indices st1 l q = assign_indices st2 l q.
Proof.
  intros H. induction l as [|x l IH] using rev_ind; intros Hq.
  - by apply elem_of_nil in Hq.
  - rewrite !assign_indices_snoc.
    destruct (decide (x = q)) as [->|Hne].
    + rewrite !fn_lookup_insert. apply set_index_same.
      destruct (assign_indices_same_but_index st1 l q) as (A1 & A2 & A3 & A4).
      destruct (assign_indices_same_but_index st2 l q) as (B1 & B2 & B3 & B4).
      destruct (H q) as (C1 & C2 & C3 & C4).
      unfold same_but_index. split_and!; congruence.
    + rewrite !fn_lookup_insert_ne by done. apply IH.
      apply elem_of_app in Hq as [Hq|Hq]; [done|].
      apply list_elem_of_singleton in Hq. congruence.
Qed.

(** X8: loading again without a list: with the same flag, or with
    [only_requested=False] after either flag, the model and every record
    come out as if that flag had been used on the first load.  (Loading
    with [only_requested=True] after a full load is not covered: the
    records that drop out of the display keep the indices of the full
    load.) *)
Theorem load_again_as_direct (only_requested1 only_requested2 : bool)
    (packages0 : option (list ref)) (self : EnvironmentPackagesTable) :
  only_requested1 = only_requested2 ∨ only_requested2 = false →
  let again :=
    load_packages only_requested2 None
      (load_packages only_requested1 packages0 self) in
  let direct := load_packages only_requested2 packages0 self in
  source_model again = source_model direct
  ∧ ∀ q, store again q = store direct q.
Proof.
  intros Hflags again direct. subst again direct.
  destruct (decide (supplied packages0 self = [])) as [He|Hs].
  { assert (all_packages (source_model self) = []) as Hall.
    { destruct packages0 as [[|x l]|]; done. }
    rewrite !(load_packages_idle _ packages0) by done.
    by rewrite load_packages_idle. }
  set (s1 := load_packages only_requested1 packages0 self).
  set (L := supplied packages0 self) in *.
  assert (all_packages (source_model s1) = L) as Hall
    by apply (load_packages_displays _ _ _ Hs).
  assert (supplied None s1 = L) as HL by done.
  assert (supplied None s1 ≠ []) as Hs1 by by rewrite HL.
  assert (∀ q, same_but_index (store s1 q) (store self q)) as Hsame.
  { intros q. subst s1. rewrite load_packages_store by done.
    apply assign_indices_same_but_index. }
  assert (shown only_requested2 (store s1) L
          = shown only_requested2 (store self) L) as HD
    by by apply shown_ext.
  split.
  - rewrite !load_packages_model by done. cbv zeta. rewrite HL, HD.
    fold L. f_equal. apply name_map_ext. intros q.
    destruct (assign_indices_same_but_index (store s1)
                (shown only_requested2 (store self) L) q) as (A1 & A2 & A3 & A4).
    destruct (assign_indices_same_but_index (store self)
                (shown only_requested2 (store self) L) q) as (B1 & B2 & B3 & B4).
    destruct (Hsame q) as (C1 & C2 & C3 & C4).
    unfold same_but_index. split_and!; congruence.
  - intros q. rewrite !load_packages_store by done. rewrite HL, HD. fold L.
    destruct (decide (q ∈ shown only_requested2 (store self) L)) as [Hq|Hq].
    + by apply assign_indices_agree.
    + rewrite !assign_indices_notin by done.
      subst s1. rewrite load_packages_store by done. fold L.
      apply assign_indices_notin. intros Hq1. apply Hq.
      destruct Hflags as [->| ->]; [done|].
      unfold shown in *. destruct only_requested1; [|done].
      by apply list_elem_of_filter in Hq1 as [_ ?].
Qed.

(** ** From a displayed row back to its package *)

Lemma getitem_lookup {A : Type} (l : list A) (i : nat) (x : A) :
  l !! i = Some x → getitem l (Z.of_nat i) = Returns x.
Proof.
  intros Hx.
  destruct (getitem_in_range l (Z.of_nat i)) as (y & Hy & Hg).
  - apply lookup_lt_Some in Hx. lia.
  - rewrite Nat2Z.id in Hy. congruence.
Qed.

(** X9: after a load that installs a list, the ["index"] written into a
    displayed record leads back to that record: it is a row of the table
    and [get_package_info] at it returns the record. *)
Theorem index_leads_back (only_requested : bool)
    (packages0 : option (list ref)) (self : EnvironmentPackagesTable) :
  supplied packages0 self ≠ [] →
  let after := load_packages only_requested packages0 self in
  ∀ q, q ∈ packages (source_model after) →
       ∃ i, pkg_index (store after q) = Some i
            ∧ 0 <= i < rowCount (source_model after)
            ∧ get_package_info after i = Returns q.
Proof.
  intros Hs after q. subst after. unfold get_package_info, rowCount.
  rewrite load_packages_model, load_packages_store by done. cbv zeta.
  cbn [packages]. intros Hq.
  destruct (assign_indices_in (store self) _ q Hq) as (i & Hi & Hidx).
  exists (Z.of_nat i). split; [done|]. split.
  - apply lookup_lt_Some in Hi. lia.
  - by apply getitem_lookup.
Qed.

(** X10: after a load that installs a list with pairwise distinct displayed
    names, the name shown in a row is the key under which the name
    lookup holds the package of that row. *)
Theorem shown_name_looks_up (only_requested : bool)
    (packages0 : option (list ref)) (self : EnvironmentPackagesTable)
    (i : QModelIndex) :
  supplied packages0 self ≠ [] →
  let after := load_packages only_requested packages0 self in
  NoDup (map (λ q, pkg_name (store after q)) (packages (source_model after))) →
  isValid i = true →
  0 <= ix_row i < rowCount (source_model after) →
  ix_column i = NAME →
  ∃ package,
    row (source_model after) (ix_row i) = Returns package
    ∧ data (store after) (source_model after) i Qt.DisplayRole
      = Returns (QText (pkg_name (store after package)))
    ∧ packages_map (source_model after) !! pkg_name (store after package)
      = Some package.
Proof.
  intros Hs after Hnd Hv Hr Hc.
  assert (∀ q, q ∈ packages (source_model after) →
               packages_map (source_model after) !! pkg_name (store after q)
               = Some q) as Hmap.
  { revert Hnd. subst after.
    rewrite load_packages_model, load_packages_store by done. cbv zeta.
    cbn [packages packages_map]. intros Hnd. by apply name_map_unique. }
  destruct (data_inside (store after) (source_model after) i Qt.DisplayRole
              Hv Hr) as (package & Hp & Hd).
  exists package. split_and!.
  - unfold row. unfold rowCount in Hr.
    destruct (getitem_in_range _ _ Hr) as (x & Hx & ->). congruence.
  - rewrite Hd, Hc. reflexivity.
  - apply Hmap. by eapply list_elem_of_lookup_2.
Qed.

(** X11: in the view loaded with [only_requested=True] every row is
    highlighted, and a right click on any row pops up the menu. *)
Theorem only_requested_rows_highlighted (packages0 : option (list ref))
    (self : EnvironmentPackagesTable) :
  supplied packages0 self ≠ [] →
  let after := load_packages true packages0 self in
  (∀ i, isValid i = true →
        0 <= ix_row i < rowCount (source_model after) →
        data (store after) (source_model after) i Qt.BackgroundColorRole
        = Returns (QColor COLOR_OCCURRENCE_4))
  ∧ (∀ event,
       0 <= rowAt after (pos event).2 < rowCount (source_model after) →
       ∃ after', contextMenuEvent after event = Returns after'
                 ∧ menu_shown after after').
Proof.
  intros Hs after.
  assert (∀ q, q ∈ packages (source_model after) →
               pkg_requested (store after q) = true) as Hreq.
  { subst after.
    rewrite load_packages_model, load_packages_store by done. cbv zeta.
    cbn [packages]. unfold shown. intros q Hq.
    rewrite (proj2 (proj2 (proj2 (assign_indices_fields _ _ q)))).
    apply list_elem_of_filter in Hq as [Hq _]. by apply Is_true_eq_true. }
  split.
  - intros i Hv Hr.
    destruct (data_inside (store after) (source_model after) i
                Qt.BackgroundColorRole Hv Hr) as (package & Hp & ->).
    simpl. by rewrite (Hreq package) by by eapply list_elem_of_lookup_2.
  - intros event Hr.
    destruct (contextMenuEvent_on_row after event Hr) as (package & Hp & H).
    by rewrite (Hreq package) in H by by eapply list_elem_of_lookup_2.
Qed.

(** ** Walking through the rows *)

Lemma selectRow_frame (k : Z) (self : EnvironmentPackagesTable) :
  store (selectRow k self) = store self
  ∧ source_model (selectRow k self) = source_model self.
Proof. unfold selectRow. by case_match. Qed.

Lemma selectRow_ignored (k : Z) (self : EnvironmentPackagesTable) :
  ¬ (0 <= k < rowCount (source_model self)) →
  selectRow k self = log (SelectRow k) self.
Proof.
  intros Hk. unfold selectRow.
  destruct ((0 <=? k) && (k <? rowCount (source_model self))) eqn:Hin; [|done].
  apply andb_true_iff in Hin as [H1 H2].
  apply Z.leb_le in H1. apply Z.ltb_lt in H2. lia.
Qed.

Lemma next_row_lands (self : EnvironmentPackagesTable) :
  let n := rowCount (source_model self) in
  let r := ix_row (currentIndex self) in
  0 < n → -1 <= r < n →
  source_model (next_row self) = source_model self
  ∧ isValid (currentIndex (next_row self)) = true
  ∧ ix_row (currentIndex (next_row self)) = (r + 1) mod n.
Proof.
  intros n r Hn Hr. subst n r. unfold next_row.
  split; [apply selectRow_frame|].
  destruct (ix_row (currentIndex self) + 1 =? rowCount (source_model self))
    eqn:He.
  - apply Z.eqb_eq in He. rewrite He, Z_mod_same_full.
    apply (selectRow_inside self 0). lia.
  - apply Z.eqb_neq in He. rewrite Z.mod_small by lia.
    apply (selectRow_inside self). lia.
Qed.

Lemma previous_row_lands (self : EnvironmentPackagesTable) :
  let n := rowCount (source_model self) in
  let r := ix_row (currentIndex self) in
  0 < n → 0 <= r < n →
  source_model (previous_row self) = source_model self
  ∧ isValid (currentIndex (previous_row self)) = true
  ∧ ix_row (currentIndex (previous_row self)) = (r - 1) mod n.
Proof.
  intros n r Hn Hr. subst n r. unfold previous_row.
  split; [apply selectRow_frame|].
  destruct (ix_row (currentIndex self) =? 0) eqn:He.
  - apply Z.eqb_eq in He. rewrite He.
    replace (0 - 1) with (-1) by lia.
    replace (-1 mod rowCount (source_model self))
      with (rowCount (source_model self) - 1).
    + apply (selectRow_inside self). lia.
    + apply (Z.mod_unique _ _ (-1)); lia.
  - apply Z.eqb_neq in He. rewrite Z.mod_small by lia.
    apply (selectRow_inside self). lia.
Qed.

(** X12: from a current row of the table, [next_row] and [previous_row] undo
    each other: either order leads back to the row one started from. *)
Theorem next_previous_row_inverse (self : EnvironmentPackagesTable) :
  let n := rowCount (source_model self) in
  let r := ix_row (currentIndex self) in
  0 <= r < n →
  ix_row (currentIndex (previous_row (next_row self))) = r
  ∧ isValid (currentIndex (previous_row (next_row self))) = true
  ∧ ix_row (currentIndex (next_row (previous_row self))) = r
  ∧ isValid (currentIndex (next_row (previous_row self))) = true.
Proof.
  intros n r Hr. subst n r.
  set (n := rowCount (source_model self)) in *.
  set (r := ix_row (currentIndex self)) in *.
  assert (0 < n) as Hn by lia.
  destruct (next_row_lands self) as (Hm1 & Hv1 & Hr1); [done|fold r n; lia|].
  destruct (previous_row_lands self) as (Hm2 & Hv2 & Hr2); [done|done|].
  fold r n in Hr1, Hr2.
  assert (0 <= (r + 1) mod n < n) as B1 by (apply Z.mod_pos_bound; lia).
  assert (0 <= (r - 1) mod n < n) as B2 by (apply Z.mod_pos_bound; lia).
  destruct (previous_row_lands (next_row self)) as (_ & Hv3 & Hr3);
    [by rewrite Hm1|rewrite Hm1, Hr1; by fold n|].
  destruct (next_row_lands (previous_row self)) as (_ & Hv4 & Hr4);
    [by rewrite Hm2|rewrite Hm2, Hr2; fold n; lia|].
  rewrite Hm1, Hr1 in Hr3. rewrite Hm2, Hr2 in Hr4. fold n in Hr3, Hr4.
  split_and!; [|done| |done].
  - rewrite Hr3, Zminus_mod_idemp_l.
    replace (r + 1 - 1) with r by lia. apply Z.mod_small. lia.
  - rewrite Hr4, Zplus_mod_idemp_l.
    replace (r - 1 + 1) with r by lia. apply Z.mod_small. lia.
Qed.

(** X13: from a current row [r] of a table of [n] rows, [k] calls of
    [next_row] lead to row [(r + k) mod n] and [k] calls of
    [previous_row] to row [(r - k) mod n]; [n] calls of either lead back
    to [r]. *)
Theorem next_row_cycles (self : EnvironmentPackagesTable) (k : nat) :
  let n := rowCount (source_model self) in
  let r := ix_row (currentIndex self) in
  0 <= r < n →
  ix_row (currentIndex (Nat.iter k next_row self)) = (r + Z.of_nat k) mod n
  ∧ ix_row (currentIndex (Nat.iter k previous_row self))
    = (r - Z.of_nat k) mod n
  ∧ ix_row (currentIndex (Nat.iter (Z.to_nat n) next_row self)) = r
  ∧ ix_row (currentIndex (Nat.iter (Z.to_nat n) previous_row self)) = r.
Proof.
  intros n r Hr. subst n r.
  set (n := rowCount (source_model self)) in *.
  set (r := ix_row (currentIndex self)) in *.
  assert (0 < n) as Hn by lia.
  assert (∀ j : nat,
            source_model (Nat.iter j next_row self) = source_model self
            ∧ ix_row (currentIndex (Nat.iter j next_row self))
              = (r + Z.of_nat j) mod n) as Hnext.
  { induction j as [|j [IHm IHr]].
    - simpl. split; [done|]. rewrite Z.add_0_r. symmetry.
      apply Z.mod_small. done.
    - rewrite !Nat.iter_succ.
      destruct (next_row_lands (Nat.iter j next_row self)) as (Hm & _ & Hrow).
      + by rewrite IHm.
      + rewrite IHm, IHr. fold n.
        pose proof (Z.mod_pos_bound (r + Z.of_nat j) n Hn). lia.
      + split; [congruence|]. rewrite Hrow, IHm, IHr. fold n.
        rewrite Zplus_mod_idemp_l. f_equal. lia. }
  assert (∀ j : nat,
            source_model (Nat.iter j previous_row self) = source_model self
            ∧ ix_row (currentIndex (Nat.iter j previous_row self))
              = (r - Z.of_nat j) mod n) as Hprev.
  { induction j as [|j [IHm IHr]].
    - simpl. split; [done|]. rewrite Z.sub_0_r. symmetry.
      apply Z.mod_small. done.
    - rewrite !Nat.iter_succ.
      destruct (previous_row_lands (Nat.iter j previous_row self))
        as (Hm & _ & Hrow).
      + by rewrite IHm.
      + rewrite IHm, IHr. fold n. apply Z.mod_pos_bound. done.
      + split; [congruence|]. rewrite Hrow, IHm, IHr. fold n.
        rewrite Zminus_mod_idemp_l. f_equal. lia. }
  split; [apply Hnext|]. split; [apply Hprev|]. split.
  - rewrite (proj2 (Hnext _)), Z2Nat.id by lia.
    rewrite <- (Z.mul_1_l n) at 1. rewrite Z_mod_plus_full.
    apply Z.mod_small. done.
  - rewrite (proj2 (Hprev _)), Z2Nat.id by lia.
    replace (r - n) with (r + (-1) * n) by lia. rewrite Z_mod_plus_full.
    apply Z.mod_small. done.
Qed.

(** X14: without a current row, [previous_row] asks for row -2 and selects
    nothing, it does not wrap to the last row; on an empty table
    [next_row] asks for row 0 and selects nothing either.  After a load
    that installed a list there is no current row, so [previous_row]
    leaves the table without one. *)
Theorem navigation_without_current_row (only_requested : bool)
    (packages0 : option (list ref)) (self : EnvironmentPackagesTable) :
  (ix_row (currentIndex self) = -1 →
   previous_row self = log (SelectRow (-2)) self)
  ∧ (ix_row (currentIndex self) = -1 → rowCount (source_model self) = 0 →
     next_row self = log (SelectRow 0) self)
  ∧ (supplied packages0 self ≠ [] →
     currentIndex (previous_row (load_packages only_requested packages0 self))
     = invalid_index).
Proof.
  split_and!.
  - intros Hr. unfold previous_row. rewrite Hr. simpl.
    apply selectRow_ignored. lia.
  - intros Hr Hn. unfold next_row. rewrite Hr, Hn. simpl.
    apply selectRow_ignored. lia.
  - intros Hs.
    assert (currentIndex (load_packages only_requested packages0 self)
            = invalid_index) as Hcur.
    { rewrite load_packages_installs by done. cbv zeta.
      unfold sortByColumn, with_model at 1. cbn [currentIndex log].
      by rewrite (proj2 (proj2 (adjust_cells_state _))). }
    unfold previous_row. rewrite Hcur. simpl. exact Hcur.
Qed.

(** ** More on the context menu *)

Lemma getitem_row_hit {A : Type} (l : list A) (i : Z) :
  l ≠ [] → -1 <= i < Z.of_nat (length l) → ∃ x, getitem l i = Returns x.
Proof.
  intros Hl Hi. destruct (decide (i = -1)) as [->|Hne].
  - destruct l as [|y l] using rev_ind; [done|].
    exists y. apply getitem_last.
  - destruct (getitem_in_range l i) as (x & _ & Hx); [lia|]. by exists x.
Qed.

(** X15: a right click never raises and changes neither the records, the
    model nor the current index, whatever row [rowAt] reports between -1
    and the last row: it either leaves the table as it is or pops up the
    menu.  On an empty table it leaves the table as it is for any value
    of [rowAt]. *)
Theorem contextMenuEvent_frame (self : EnvironmentPackagesTable)
    (event : QContextMenuEvent) :
  (packages (source_model self) = [] →
   contextMenuEvent self event = Returns self)
  ∧ (-1 <= rowAt self (pos event).2 < rowCount (source_model self) →
     ∃ after,
       contextMenuEvent self event = Returns after
       ∧ store after = store self
       ∧ source_model after = source_model self
       ∧ currentIndex after = currentIndex self
       ∧ (after = self ∨ menu_shown self after)).
Proof.
  split.
  - intros He. unfold contextMenuEvent. by rewrite He.
  - intros Hr. unfold contextMenuEvent, rowCount in *.
    destruct (packages (source_model self)) as [|x l] eqn:Hl.
    + exists self. simpl. split_and!; try done. by left.
    + destruct (getitem_row_hit (x :: l) (rowAt self (pos event).2))
        as (package & ->); [done|done|].
      simpl. destruct (pkg_requested (store self package)).
      * eexists. split; [done|]. split_and!; try done. right.
        unfold menu_shown. simpl. eexists _, _, _.
        split; [by rewrite <- app_assoc|done].
      * exists self. split_and!; try done. by left.
Qed.

(** X16: on a right click that hits a row with a requested package, the menu
    holds the three actions update, uninstall, change version, in this
    order; triggering any of them, on whatever the table has become by
    then, emits the action's name with the package of the row that was
    clicked. *)
Theorem menu_actions_emit_clicked_package (self : EnvironmentPackagesTable)
    (event : QContextMenuEvent) (package : ref) :
  0 <= rowAt self (pos event).2 < rowCount (source_model self) →
  packages (source_model self) !! Z.to_nat (rowAt self (pos event).2)
    = Some package →
  pkg_requested (store self package) = true →
  ∃ after acts,
    contextMenuEvent self event = Returns after
    ∧ calls after =
        calls self ++ [MenuPopup acts 100 (globalPos event); EventAccept]
    ∧ map act_name acts = ["update_package"; "unistall_package";
                           "install_package_version"]%string
    ∧ ∀ a later, a ∈ acts →
        trigger a later =
          Returns (log (Emit_sig_action_context_menu (act_name a) package)
                       later).
Proof.
  intros Hr Hp Hreq. unfold rowCount in Hr.
  destruct (getitem_in_range _ _ Hr) as (x & Hx & Hg).
  assert (x = package) as -> by congruence.
  unfold contextMenuEvent.
  destruct (packages (source_model self)) as [|y l] eqn:Hl;
    [simpl in Hr; lia|].
  rewrite Hg. simpl. rewrite Hreq.
  eexists _, _. split; [done|]. simpl.
  split; [by rewrite <- app_assoc|]. split; [done|].
  intros a later Ha. unfold trigger, selection.
  repeat (apply elem_of_cons in Ha as [->|Ha]; [simpl; by rewrite Hg|]).
  by apply elem_of_nil in Ha.
Qed.

End Widget.

(** ** Runs on the sample data *)

(** C1: the model's displayed list after [load_packages] of the records
    [six], [numpy] is still [six], [numpy]: the sort request reaches a
    model without a [sort] of its own, and the list is not in ascending
    name order. *)
Theorem load_packages_leaves_input_order :
  let after :=
    load_packages sample_fm false (Some [1%nat; 0%nat])
      (new_table sample_fm sample_store) in
  packages (source_model after) = [1%nat; 0%nat]
  ∧ map (λ p, pkg_name (store after p)) (packages (source_model after))
    = ["six"; "numpy"]%string
  ∧ last (calls after) = Some (SortByColumn NAME Qt.AscendingOrder)
  ∧ sorted_by_name (store after) (packages (source_model after)) = false.
Proof. vm_compute. repeat split. Qed.

(** C2: with [numpy], a requested package, as the only row, a right click
    under that row hits no row, and the menu with the three actions is
    popped up all the same; its update action then emits the last
    displayed package. *)
Theorem context_menu_shown_off_rows :
  let self :=
    load_packages sample_fm false (Some [0%nat])
      (new_table sample_fm sample_store) in
  let event := {| pos := (10, 200); globalPos := (410, 500) |} in
  sample_rowAt self (pos event).2 = -1
  ∧ ∃ after update_action rest,
      contextMenuEvent sample_rowAt self event = Returns after
      ∧ menu_shown self after
      ∧ last (calls after) = Some EventAccept
      ∧ calls after =
          calls self ++ [MenuPopup (update_action :: rest) 100 (410, 500);
                         EventAccept]
      ∧ ∃ emitted,
          trigger update_action after = Returns emitted
          ∧ last (calls emitted) =
              Some (Emit_sig_action_context_menu "update_package" 0%nat).
Proof.
  intros self event. split; [reflexivity|].
  destruct (contextMenuEvent sample_rowAt self event) as [after|e] eqn:He;
    [|discriminate He].
  injection He as He.
  eexists after, _, _. split; [reflexivity|].
  subst after. split.
  - eexists _, _, _. split; reflexivity.
  - split; [reflexivity|]. split; [reflexivity|].
    eexists. split; reflexivity.
Qed.

(** A load given an empty list redisplays the stored full list: after
    [numpy] and [six] were stored, [load_packages(True, [])] shows
    [numpy], which is not the requested part of the empty list. *)
Lemma load_only_requested_empty_list_redisplays :
  let self :=
    load_packages sample_fm false (Some [0%nat; 1%nat])
      (new_table sample_fm sample_store) in
  let after := load_packages sample_fm true (Some []) self in
  packages (source_model after) = [0%nat]
  ∧ packages (source_model after) ≠ requested_subsequence (store self) [].
Proof. vm_compute. split; [reflexivity|discriminate]. Qed.

(** With [six], not requested, as the only stored package, a load with
    [only_requested=True] leaves no row on display. *)
Lemma load_only_requested_empties_display :
  let self :=
    load_packages sample_fm false (Some [1%nat])
      (new_table sample_fm sample_store) in
  let after := load_packages sample_fm true (Some []) self in
  packages (source_model self) = [1%nat]
  ∧ all_packages (source_model after) = [1%nat]
  ∧ ¬ (packages (source_model after) ≠ [])
  ∧ rowCount (source_model after) = 0.
Proof. vm_compute. repeat split. intros H. by apply H. Qed.

Lemma load_only_requested_subsequence_witness :
  let self := new_table sample_fm sample_store in
  let after := load_packages sample_fm true (Some [0%nat; 1%nat; 0%nat]) self in
  [0%nat; 1%nat; 0%nat] ≠ []
  ∧ packages (source_model after) = [0%nat; 0%nat].
Proof.
  intros self after. split; [discriminate|].
  exact (proj1 (load_only_requested_subsequence sample_fm
                  [0%nat; 1%nat; 0%nat] self ltac:(discriminate))).
Defined.

Lemma data_display_field_witness :
  let self :=
    load_packages sample_fm false (Some [0%nat; 1%nat])
      (new_table sample_fm sample_store) in
  let i := {| ix_row := 1; ix_column := VERSION; ix_model := true |} in
  isValid i = true
  ∧ 0 <= ix_row i < rowCount (source_model self)
  ∧ (ix_column i = NAME ∨ ix_column i = DESCRIPTION ∨ ix_column i = VERSION)
  ∧ data (-1) "#3a3e42" (store self) (source_model self) i Qt.DisplayRole
    = Returns (QText "1.1").
Proof.
  intros self i.
  assert (isValid i = true) as Hv by reflexivity.
  assert (0 <= ix_row i < rowCount (source_model self)) as Hr
    by (split; [discriminate|reflexivity]).
  assert (ix_column i = NAME ∨ ix_column i = DESCRIPTION
          ∨ ix_column i = VERSION) as Hc by (right; right; reflexivity).
  split; [exact Hv|]. split; [exact Hr|]. split; [exact Hc|].
  destruct (data_display_field (-1) "#3a3e42" (store self) (source_model self)
              i Hv Hr Hc) as (package & Hp & Hd).
  rewrite Hd. injection Hp as <-. reflexivity.
Defined.

Lemma data_out_of_range_empty_witness :
  let self :=
    load_packages sample_fm false (Some [0%nat; 1%nat])
      (new_table sample_fm sample_store) in
  let below := {| ix_row := -1; ix_column := 0; ix_model := true |} in
  let beyond := {| ix_row := 2; ix_column := 1; ix_model := true |} in
  let wide := {| ix_row := 1; ix_column := 3; ix_model := true |} in
  data (-1) "#3a3e42" (store self) (source_model self) below
       Qt.BackgroundColorRole = Returns QInvalid
  ∧ data (-1) "#3a3e42" (store self) (source_model self) beyond
         Qt.DisplayRole = Returns QInvalid
  ∧ data (-1) "#3a3e42" (store self) (source_model self) wide
         Qt.DisplayRole = Returns QInvalid.
Proof.
  intros self below beyond wide. split_and!.
  - apply (proj1 (data_out_of_range_empty (-1) "#3a3e42" (store self)
                    (source_model self) below Qt.BackgroundColorRole)).
    intros [H _]. by apply H.
  - apply (proj1 (data_out_of_range_empty (-1) "#3a3e42" (store self)
                    (source_model self) beyond Qt.DisplayRole)).
    intros [_ H]. discriminate H.
  - apply (proj2 (data_out_of_range_empty (-1) "#3a3e42" (store self)
                    (source_model self) wide Qt.DisplayRole));
      [split; [discriminate|reflexivity]|discriminate..].
Defined.

Lemma load_without_list_reuses_last_witness :
  let self0 := new_table sample_fm sample_store in
  let self := load_packages sample_fm false (Some [0%nat; 1%nat]) self0 in
  [0%nat; 1%nat] ≠ []
  ∧ all_packages (source_model self) = [0%nat; 1%nat]
  ∧ load_packages sample_fm true None self =
      load_packages sample_fm true (Some [0%nat; 1%nat]) self
  ∧ packages (source_model (load_packages sample_fm true None self))
    = [0%nat].
Proof.
  intros self0 self.
  assert ([0%nat; 1%nat] ≠ []) as Hps by discriminate.
  destruct (load_without_list_reuses_last sample_fm false true
              [0%nat; 1%nat] self0 Hps) as [Hall Heq].
  split; [exact Hps|]. split; [exact Hall|]. split; [exact Heq|].
  reflexivity.
Defined.

Lemma name_lookup_matches_displayed_witness :
  let self := new_table sample_fm sample_store in
  let after := load_packages sample_fm false (Some [0%nat; 1%nat]) self in
  supplied (Some [0%nat; 1%nat]) self ≠ []
  ∧ NoDup (map (λ q, pkg_name (store after q)) (packages (source_model after)))
  ∧ packages_map (source_model after) !! "numpy"%string = Some 0%nat
  ∧ packages_map (source_model after) !! "six"%string = Some 1%nat
  ∧ size (packages_map (source_model after)) = 2%nat.
Proof.
  intros self after.
  assert (supplied (Some [0%nat; 1%nat]) self ≠ []) as Hs by discriminate.
  assert (NoDup (map (λ q, pkg_name (store after q))
                     (packages (source_model after)))) as Hnd.
  { apply (bool_decide_unpack _). vm_compute. exact I. }
  destruct (name_lookup_matches_displayed sample_fm false
              (Some [0%nat; 1%nat]) self Hs) as (_ & _ & Hu).
  destruct (Hu Hnd) as [Hlook Hsize].
  split; [exact Hs|]. split; [exact Hnd|]. split_and!.
  - apply (Hlook 0%nat). apply list_elem_of_here.
  - apply (Hlook 1%nat). apply list_elem_of_further, list_elem_of_here.
  - exact Hsize.
Defined.

Lemma next_previous_row_wrap_witness :
  let loaded :=
    load_packages sample_fm false (Some [0%nat; 1%nat])
      (new_table sample_fm sample_store) in
  let at_last := selectRow 1 loaded in
  let at_first := selectRow 0 loaded in
  0 < rowCount (source_model at_last)
  ∧ 0 < rowCount (source_model at_first)
  ∧ selects at_last (next_row at_last) 0
  ∧ selects at_first (next_row at_first) 1
  ∧ selects at_first (previous_row at_first) 1
  ∧ selects at_last (previous_row at_last) 0.
Proof.
  intros loaded at_last at_first.
  assert (0 < rowCount (source_model at_last)) as Hl by reflexivity.
  assert (0 < rowCount (source_model at_first)) as Hf by reflexivity.
  destruct (next_previous_row_wrap at_last Hl) as (Hn1 & _ & _ & Hp1).
  destruct (next_previous_row_wrap at_first Hf) as (_ & Hn0 & Hp0 & _).
  split; [exact Hl|]. split; [exact Hf|]. split_and!.
  - apply Hn1. reflexivity.
  - apply Hn0. split; [discriminate|reflexivity].
  - apply Hp0. reflexivity.
  - apply Hp1. split; reflexivity.
Defined.

Lemma load_assigns_indices_in_place_witness :
  let self :=
    load_packages sample_fm false (Some [1%nat; 0%nat])
      (new_table sample_fm sample_store) in
  let after := load_packages sample_fm true None self in
  supplied None self ≠ []
  ∧ pkg_index (store self 0%nat) = Some 1
  ∧ packages (source_model after) = [0%nat]
  ∧ pkg_index (store after 0%nat) = Some 0
  ∧ store after 1%nat = store self 1%nat
  ∧ pkg_index (store after 1%nat) = Some 0.
Proof.
  intros self after.
  assert (supplied None self ≠ []) as Hs by discriminate.
  destruct (load_assigns_indices_in_place sample_fm true None self Hs)
    as (_ & Hlast & _ & _ & _ & Hreq).
  destruct (Hreq eq_refl) as [Hshown Hall].
  split; [exact Hs|]. split; [reflexivity|]. split; [exact Hshown|].
  split_and!.
  - apply (Hlast 0%nat 0%nat); [reflexivity|].
    intros [|j] Hj; [lia|discriminate].
  - apply (Hall 1%nat); [apply list_elem_of_here|reflexivity].
  - unfold after.
    rewrite (proj2 (Hall 1%nat (list_elem_of_here _ _)) eq_refl).
    reflexivity.
Defined.

Lemma load_empty_keeps_state_witness :
  let fresh := new_table sample_fm sample_store in
  let loaded := load_packages sample_fm false (Some [0%nat; 1%nat]) fresh in
  truthy (Some ([] : list ref)) = false
  ∧ all_packages (source_model fresh) = []
  ∧ load_packages sample_fm true (Some []) fresh = fresh
  ∧ load_packages sample_fm false None fresh = fresh
  ∧ calls (load_packages sample_fm false (Some []) fresh) = calls fresh
  ∧ all_packages (source_model loaded) ≠ []
  ∧ all_packages (source_model (load_packages sample_fm true (Some []) loaded))
    = [0%nat; 1%nat]
  ∧ packages (source_model (load_packages sample_fm false (Some []) loaded))
    ≠ [].
Proof.
  intros fresh loaded.
  assert (all_packages (source_model fresh) = []) as Hf by reflexivity.
  assert (all_packages (source_model loaded) ≠ []) as Hl by discriminate.
  split; [reflexivity|]. split; [exact Hf|]. split_and!.
  - exact (proj1 (load_empty_keeps_state sample_fm true (Some []) fresh)
             eq_refl Hf).
  - exact (proj1 (load_empty_keeps_state sample_fm false None fresh)
             eq_refl Hf).
  - exact (f_equal calls
             (proj1 (load_empty_keeps_state sample_fm false (Some []) fresh)
                eq_refl Hf)).
  - exact Hl.
  - exact (proj1 (proj2 (load_empty_keeps_state sample_fm true None loaded))).
  - exact (proj2 (proj2 (proj2
             (load_empty_keeps_state sample_fm true (Some []) loaded)) Hl)).
Defined.

Lemma data_decoration_roles_witness :
  let self :=
    load_packages sample_fm false (Some [0%nat; 1%nat])
      (new_table sample_fm sample_store) in
  let first := {| ix_row := 0; ix_column := 1; ix_model := true |} in
  let second := {| ix_row := 1; ix_column := 2; ix_model := true |} in
  isValid first = true
  ∧ 0 <= ix_row first < rowCount (source_model self)
  ∧ isValid second = true
  ∧ 0 <= ix_row second < rowCount (source_model self)
  ∧ data (-1) "#3a3e42" (store self) (source_model self) first
         Qt.BackgroundColorRole = Returns (QColor "#3a3e42")
  ∧ data (-1) "#3a3e42" (store self) (source_model self) second
         Qt.BackgroundColorRole = Returns QInvalid
  ∧ data (-1) "#3a3e42" (store self) (source_model self) second
         Qt.FontRole = Returns (QFontDelta (-1)).
Proof.
  intros self first second.
  assert (0 <= ix_row first < rowCount (source_model self)) as H1
    by (split; [discriminate|reflexivity]).
  assert (0 <= ix_row second < rowCount (source_model self)) as H2
    by (split; [discriminate|reflexivity]).
  destruct (data_decoration_roles (-1) "#3a3e42" (store self)
              (source_model self) first eq_refl H1)
    as (p1 & Hp1 & _ & _ & Hb1).
  destruct (data_decoration_roles (-1) "#3a3e42" (store self)
              (source_model self) second eq_refl H2)
    as (p2 & Hp2 & _ & Hf2 & Hb2).
  injection Hp1 as <-. injection Hp2 as <-.
  split; [reflexivity|]. split; [exact H1|]. split; [reflexivity|].
  split; [exact H2|]. split; [exact Hb1|]. split; [exact Hb2|exact Hf2].
Defined.

Lemma row_unguarded_indexing_witness :
  let self :=
    load_packages sample_fm false (Some [0%nat; 1%nat])
      (new_table sample_fm sample_store) in
  0 <= 1 < rowCount (source_model self)
  ∧ (-3 < - rowCount (source_model self) ∨ rowCount (source_model self) <= -3)
  ∧ (2 < - rowCount (source_model self) ∨ rowCount (source_model self) <= 2)
  ∧ row (source_model self) 1 = Returns 1%nat
  ∧ row (source_model self) (-1) = Returns 1%nat
  ∧ row (source_model self) (-3) = Raises IndexError
  ∧ row (source_model self) 2 = Raises IndexError.
Proof.
  intros self.
  assert (0 <= 1 < rowCount (source_model self)) as H1
    by (split; [discriminate|reflexivity]).
  assert (-3 < - rowCount (source_model self)
          ∨ rowCount (source_model self) <= -3) as H2 by (left; reflexivity).
  assert (2 < - rowCount (source_model self)
          ∨ rowCount (source_model self) <= 2) as H3
    by (right; discriminate).
  destruct (row_unguarded_indexing self 1) as (_ & Hin & _).
  destruct (Hin H1) as (package & Hp & Hrow & Hend).
  injection Hp as <-.
  split; [exact H1|]. split; [exact H2|]. split; [exact H3|].
  split; [exact Hrow|]. split; [exact Hend|]. split.
  - exact (proj2 (proj2 (row_unguarded_indexing self (-3))) H2).
  - exact (proj2 (proj2 (row_unguarded_indexing self 2)) H3).
Defined.

Lemma headerData_alignment_witness :
  let self :=
    load_packages sample_fm false (Some [0%nat; 1%nat])
      (new_table sample_fm sample_store) in
  let i := {| ix_row := 1; ix_column := 0; ix_model := true |} in
  isValid i = true
  ∧ 0 <= ix_row i < rowCount (source_model self)
  ∧ Qt.FontRole ≠ Qt.TextAlignmentRole
  ∧ Qt.FontRole ≠ Qt.DisplayRole
  ∧ data (-1) "#3a3e42" (store self) (source_model self) i
         Qt.TextAlignmentRole
    = Returns (headerData id 7 Horizontal Qt.TextAlignmentRole)
  ∧ headerData id 1 Horizontal Qt.FontRole = QInvalid.
Proof.
  intros self i.
  assert (0 <= ix_row i < rowCount (source_model self)) as Hr
    by (split; [discriminate|reflexivity]).
  assert (Qt.FontRole ≠ Qt.TextAlignmentRole) as Ha by discriminate.
  assert (Qt.FontRole ≠ Qt.DisplayRole) as Hd by discriminate.
  destruct (headerData_alignment (-1) "#3a3e42" id (store self)
              (source_model self) i 7 Qt.FontRole Horizontal)
    as (_ & _ & Hcell & _).
  destruct (headerData_alignment (-1) "#3a3e42" id (store self)
              (source_model self) i 1 Qt.FontRole Horizontal)
    as (_ & _ & _ & Hother).
  split; [reflexivity|]. split; [exact Hr|]. split; [exact Ha|].
  split; [exact Hd|]. split; [exact (Hcell eq_refl Hr)|exact (Hother Ha Hd)].
Defined.

Lemma adjust_cells_widths_witness :
  let fresh := new_table sample_fm sample_store in
  let self := load_packages sample_fm false (Some [0%nat; 1%nat]) fresh in
  packages (source_model fresh) = []
  ∧ packages (source_model self) ≠ []
  ∧ calls (adjust_cells sample_fm fresh) = [SetStretchLastSection true]
  ∧ ∃ wn wd,
      calls (adjust_cells sample_fm self) =
        calls self ++ [SetColumnWidth NAME wn; SetColumnWidth DESCRIPTION wd;
                       SetStretchLastSection true]
      ∧ 35 <= wn ∧ 147 <= wd.
Proof.
  intros fresh self.
  assert (packages (source_model self) ≠ []) as Hne by discriminate.
  destruct (adjust_cells_widths sample_fm fresh) as (_ & _ & _ & Hempty & _).
  destruct (adjust_cells_widths sample_fm self) as (_ & _ & _ & _ & Hfull).
  destruct (Hfull Hne) as (wn & wd & Hcalls & Hge & _).
  split; [reflexivity|]. split; [exact Hne|]. split; [exact (Hempty eq_refl)|].
  exists wn, wd. split; [exact Hcalls|]. split.
  - exact (proj1 (Hge 0%nat (list_elem_of_here _ _))).
  - exact (proj2 (Hge 1%nat (list_elem_of_further _ _ _ (list_elem_of_here _ _)))).
Defined.

Lemma load_packages_signals_witness :
  let fresh := new_table sample_fm sample_store in
  let hidden := load_packages sample_fm true (Some [1%nat]) fresh in
  let full := load_packages sample_fm false (Some [1%nat]) fresh in
  supplied (Some [1%nat]) fresh ≠ []
  ∧ packages (source_model hidden) = []
  ∧ packages (source_model full) ≠ []
  ∧ calls hidden = [BeginResetModel; EndResetModel; SetStretchLastSection true;
                    SortByColumn NAME Qt.AscendingOrder]
  ∧ ∃ wn wd,
      calls full = [BeginResetModel; EndResetModel; SetColumnWidth NAME wn;
                    SetColumnWidth DESCRIPTION wd; SetStretchLastSection true;
                    SortByColumn NAME Qt.AscendingOrder].
Proof.
  intros fresh hidden full.
  assert (supplied (Some [1%nat]) fresh ≠ []) as Hs by discriminate.
  assert (packages (source_model full) ≠ []) as Hfull by discriminate.
  destruct (load_packages_signals sample_fm true (Some [1%nat]) fresh Hs)
    as (_ & w1 & Hc1 & Hnil & _).
  destruct (load_packages_signals sample_fm false (Some [1%nat]) fresh Hs)
    as (_ & w2 & Hc2 & _ & Hsome).
  specialize (Hnil eq_refl). destruct (Hsome Hfull) as (wn & wd & Hw).
  subst w1 w2.
  split; [exact Hs|]. split; [reflexivity|]. split; [exact Hfull|].
  split; [exact Hc1|]. exists wn, wd. exact Hc2.
Defined.

Lemma load_again_as_direct_witness :
  let fresh := new_table sample_fm sample_store in
  let again :=
    load_packages sample_fm false None
      (load_packages sample_fm true (Some [1%nat; 0%nat]) fresh) in
  let direct := load_packages sample_fm false (Some [1%nat; 0%nat]) fresh in
  (true = false ∨ false = false)
  ∧ source_model again = source_model direct
  ∧ pkg_index (store again 0%nat) = Some 1
  ∧ pkg_index (store again 1%nat) = Some 0.
Proof.
  intros fresh again direct.
  assert (true = false ∨ false = false) as Hf by (right; reflexivity).
  destruct (load_again_as_direct sample_fm true false (Some [1%nat; 0%nat])
              fresh Hf) as [Hm Hst].
  split; [exact Hf|]. split; [exact Hm|]. split.
  - exact (eq_trans (f_equal pkg_index (Hst 0%nat)) eq_refl).
  - exact (eq_trans (f_equal pkg_index (Hst 1%nat)) eq_refl).
Defined.

Lemma index_leads_back_witness :
  let fresh := new_table sample_fm sample_store in
  let after := load_packages sample_fm false (Some [1%nat; 0%nat]) fresh in
  supplied (Some [1%nat; 0%nat]) fresh ≠ []
  ∧ 0%nat ∈ packages (source_model after)
  ∧ ∃ i, pkg_index (store after 0%nat) = Some i
         ∧ 0 <= i < rowCount (source_model after)
         ∧ get_package_info after i = Returns 0%nat.
Proof.
  intros fresh after.
  assert (supplied (Some [1%nat; 0%nat]) fresh ≠ []) as Hs by discriminate.
  assert (0%nat ∈ packages (source_model after)) as Hin
    by apply list_elem_of_further, list_elem_of_here.
  split; [exact Hs|]. split; [exact Hin|].
  exact (index_leads_back sample_fm false (Some [1%nat; 0%nat]) fresh Hs
           0%nat Hin).
Defined.

Lemma shown_name_looks_up_witness :
  let fresh := new_table sample_fm sample_store in
  let after := load_packages sample_fm false (Some [0%nat; 1%nat]) fresh in
  let i := {| ix_row := 1; ix_column := NAME; ix_model := true |} in
  supplied (Some [0%nat; 1%nat]) fresh ≠ []
  ∧ NoDup (map (λ q, pkg_name (store after q)) (packages (source_model after)))
  ∧ isValid i = true
  ∧ 0 <= ix_row i < rowCount (source_model after)
  ∧ ix_column i = NAME
  ∧ data (-1) "#3a3e42" (store after) (source_model after) i Qt.DisplayRole
    = Returns (QText "six")
  ∧ packages_map (source_model after) !! "six"%string = Some 1%nat.
Proof.
  intros fresh after i.
  assert (supplied (Some [0%nat; 1%nat]) fresh ≠ []) as Hs by discriminate.
  assert (NoDup (map (λ q, pkg_name (store after q))
                     (packages (source_model after)))) as Hnd.
  { apply (bool_decide_unpack _). vm_compute. exact I. }
  assert (0 <= ix_row i < rowCount (source_model after)) as Hr
    by (split; [discriminate|reflexivity]).
  destruct (shown_name_looks_up (-1) "#3a3e42" sample_fm false
              (Some [0%nat; 1%nat]) fresh i Hs Hnd eq_refl Hr eq_refl)
    as (package & Hrow & Hd & Hm).
  injection Hrow as <-.
  split; [exact Hs|]. split; [exact Hnd|]. split; [reflexivity|].
  split; [exact Hr|]. split; [reflexivity|]. split; [exact Hd|exact Hm].
Defined.

Lemma only_requested_rows_highlighted_witness :
  let fresh := new_table sample_fm sample_store in
  let after := load_packages sample_fm true (Some [1%nat; 0%nat]) fresh in
  let i := {| ix_row := 0; ix_column := 2; ix_model := true |} in
  let event := {| pos := (10, 12); globalPos := (410, 312) |} in
  supplied (Some [1%nat; 0%nat]) fresh ≠ []
  ∧ isValid i = true
  ∧ 0 <= ix_row i < rowCount (source_model after)
  ∧ 0 <= sample_rowAt after (pos event).2 < rowCount (source_model after)
  ∧ data (-1) "#3a3e42" (store after) (source_model after) i
         Qt.BackgroundColorRole = Returns (QColor "#3a3e42")
  ∧ ∃ after', contextMenuEvent sample_rowAt after event = Returns after'
              ∧ menu_shown after after'.
Proof.
  intros fresh after i event.
  assert (supplied (Some [1%nat; 0%nat]) fresh ≠ []) as Hs by discriminate.
  assert (0 <= ix_row i < rowCount (source_model after)) as Hr
    by (split; [discriminate|reflexivity]).
  assert (0 <= sample_rowAt after (pos event).2
          < rowCount (source_model after)) as He
    by (split; [discriminate|reflexivity]).
  destruct (only_requested_rows_highlighted (-1) "#3a3e42" sample_fm
              sample_rowAt (Some [1%nat; 0%nat]) fresh Hs) as [Hdata Hmenu].
  split; [exact Hs|]. split; [reflexivity|]. split; [exact Hr|].
  split; [exact He|]. split; [exact (Hdata i eq_refl Hr)|exact (Hmenu event He)].
Defined.

Lemma next_previous_row_inverse_witness :
  let self :=
    selectRow 1
      (load_packages sample_fm false (Some [0%nat; 1%nat])
         (new_table sample_fm sample_store)) in
  0 <= ix_row (currentIndex self) < rowCount (source_model self)
  ∧ ix_row (currentIndex (next_row self)) = 0
  ∧ ix_row (currentIndex (previous_row (next_row self))) = 1
  ∧ ix_row (currentIndex (next_row (previous_row self))) = 1.
Proof.
  intros self.
  assert (0 <= ix_row (currentIndex self) < rowCount (source_model self))
    as Hr by (split; [discriminate|reflexivity]).
  destruct (next_previous_row_inverse self Hr) as (H1 & _ & H2 & _).
  split; [exact Hr|]. split; [reflexivity|]. split; [exact H1|exact H2].
Defined.

Lemma next_row_cycles_witness :
  let self :=
    selectRow 1
      (load_packages sample_fm false (Some [0%nat; 1%nat; 0%nat])
         (new_table sample_fm sample_store)) in
  0 <= ix_row (currentIndex self) < rowCount (source_model self)
  ∧ ix_row (currentIndex (Nat.iter 4 next_row self)) = 2
  ∧ ix_row (currentIndex (Nat.iter 4 previous_row self)) = 0
  ∧ ix_row (currentIndex (Nat.iter 3 next_row self)) = 1
  ∧ ix_row (currentIndex (Nat.iter 3 previous_row self)) = 1.
Proof.
  intros self.
  assert (0 <= ix_row (currentIndex self) < rowCount (source_model self))
    as Hr by (split; [discriminate|reflexivity]).
  destruct (next_row_cycles self 4 Hr) as (Hn & Hp & Hback & Hback').
  split; [exact Hr|]. split; [exact Hn|]. split; [exact Hp|].
  split; [exact Hback|exact Hback'].
Defined.

Lemma navigation_without_current_row_witness :
  let fresh := new_table sample_fm sample_store in
  let loaded := load_packages sample_fm false (Some [0%nat; 1%nat]) fresh in
  ix_row (currentIndex loaded) = -1
  ∧ ix_row (currentIndex fresh) = -1
  ∧ rowCount (source_model fresh) = 0
  ∧ supplied (Some [0%nat; 1%nat]) fresh ≠ []
  ∧ previous_row loaded = log (SelectRow (-2)) loaded
  ∧ next_row fresh = log (SelectRow 0) fresh
  ∧ currentIndex (previous_row loaded) = invalid_index.
Proof.
  intros fresh loaded.
  assert (supplied (Some [0%nat; 1%nat]) fresh ≠ []) as Hs by discriminate.
  destruct (navigation_without_current_row sample_fm false None loaded)
    as (Hprev & _ & _).
  destruct (navigation_without_current_row sample_fm false
              (Some [0%nat; 1%nat]) fresh) as (_ & Hnext & Hload).
  split; [reflexivity|]. split; [reflexivity|]. split; [reflexivity|].
  split; [exact Hs|]. split; [exact (Hprev eq_refl)|].
  split; [exact (Hnext eq_refl eq_refl)|exact (Hload Hs)].
Defined.

Lemma contextMenuEvent_frame_witness :
  let fresh := new_table sample_fm sample_store in
  let self := load_packages sample_fm false (Some [0%nat; 1%nat]) fresh in
  let on_six := {| pos := (10, 40); globalPos := (410, 340) |} in
  let under := {| pos := (10, 200); globalPos := (410, 500) |} in
  packages (source_model fresh) = []
  ∧ -1 <= sample_rowAt self (pos on_six).2 < rowCount (source_model self)
  ∧ -1 <= sample_rowAt self (pos under).2 < rowCount (source_model self)
  ∧ contextMenuEvent sample_rowAt fresh under = Returns fresh
  ∧ (∃ after, contextMenuEvent sample_rowAt self on_six = Returns after
              ∧ source_model after = source_model self)
  ∧ (∃ after, contextMenuEvent sample_rowAt self under = Returns after
              ∧ source_model after = source_model self).
Proof.
  intros fresh self on_six under.
  assert (-1 <= sample_rowAt self (pos on_six).2
          < rowCount (source_model self)) as H1
    by (split; [discriminate|reflexivity]).
  assert (-1 <= sample_rowAt self (pos under).2
          < rowCount (source_model self)) as H2
    by (split; [discriminate|reflexivity]).
  destruct (contextMenuEvent_frame sample_rowAt fresh under) as [Hempty _].
  destruct (contextMenuEvent_frame sample_rowAt self on_six) as [_ Hsix].
  destruct (contextMenuEvent_frame sample_rowAt self under) as [_ Hunder].
  destruct (Hsix H1) as (a1 & He1 & _ & Hm1 & _).
  destruct (Hunder H2) as (a2 & He2 & _ & Hm2 & _).
  split; [reflexivity|]. split; [exact H1|]. split; [exact H2|].
  split; [exact (Hempty eq_refl)|]. split.
  - exists a1. split; [exact He1|exact Hm1].
  - exists a2. split; [exact He2|exact Hm2].
Defined.

Lemma menu_actions_emit_clicked_package_witness :
  let self :=
    load_packages sample_fm false (Some [1%nat; 0%nat])
      (new_table sample_fm sample_store) in
  let event := {| pos := (10, 40); globalPos := (410, 340) |} in
  0 <= sample_rowAt self (pos event).2 < rowCount (source_model self)
  ∧ packages (source_model self) !! Z.to_nat (sample_rowAt self (pos event).2)
    = Some 0%nat
  ∧ pkg_requested (store self 0%nat) = true
  ∧ ∃ after acts,
      contextMenuEvent sample_rowAt self event = Returns after
      ∧ calls after =
          calls self ++ [MenuPopup acts 100 (globalPos event); EventAccept]
      ∧ map act_name acts = ["update_package"; "unistall_package";
                             "install_package_version"]%string
      ∧ ∀ a later, a ∈ acts →
          trigger a later =
            Returns (log (Emit_sig_action_context_menu (act_name a) 0%nat)
                         later).
Proof.
  intros self event.
  assert (0 <= sample_rowAt self (pos event).2
          < rowCount (source_model self)) as Hr
    by (split; [discriminate|reflexivity]).
  split; [exact Hr|]. split; [reflexivity|]. split; [reflexivity|].
  exact (menu_actions_emit_clicked_package sample_rowAt self event 0%nat
           Hr eq_refl eq_refl).
Defined.

(** Two records of one name: references [1] and [2] both denote a record
    named [six].  After loading them the lookup has a single entry for two
    displayed packages, and under the name of the first package it holds
    the second. *)
Lemma name_lookup_same_name_one_entry :
  let after :=
    load_packages sample_fm false (Some [1%nat; 2%nat])
      (new_table sample_fm sample_store) in
  packages (source_model after) = [1%nat; 2%nat]
  ∧ pkg_name (store after 1%nat) = "six"%string
  ∧ pkg_name (store after 2%nat) = "six"%string
  ∧ pkg_index (store after 1%nat) = Some 0
  ∧ pkg_index (store after 2%nat) = Some 1
  ∧ size (packages_map (source_model after)) = 1%nat
  ∧ length (packages (source_model after)) = 2%nat
  ∧ packages_map (source_model after) !! pkg_name (store after 1%nat)
    = Some 2%nat
  ∧ packages_map (source_model after) !! pkg_name (store after 1%nat)
    ≠ Some 1%nat.
Proof. vm_compute. repeat split. discriminate. Qed.
